(** * audio.go: the audio endpoints of the OpenAI client

    A shallow embedding of [audio.go] (package [openai]): the request and
    response structures, [HasJSONResponse], [audioMultipartForm] and
    [callAudioAPI], with the properties of the request assembly and of the
    dispatch that the specification states.

    Go values are embedded as follows: a [string] is a sequence of bytes
    (Rocq's [string]); a pointer is an [option], and dereferencing [nil]
    panics; an [error] result is an [option error], [None] being [nil]; the
    form builder, which the code mutates through an interface value, is
    threaded through a state monad together with a trace of the calls that
    leave the function (file system, form builder, HTTP). *)

From Stdlib Require Import String Ascii List ZArith Bool Lia Decimal DecimalPos.
From Stdlib Require Import Strings.Byte.
From Stdlib Require Import Floats.SpecFloat.
Import ListNotations.

Local Open Scope string_scope.
Local Open Scope list_scope.

(** ** The Go standard library, as far as audio.go uses it *)

Module Go.

(** [error]: the two implementations audio.go creates, [errors.New] and
    [fmt.Errorf] with a [%w] verb.  Errors of the collaborators (file
    system, form builder, transport) are values of the same type. *)
Inductive error : Type :=
| errorString (s : string)
| wrapError (msg : string) (err : error).

Definition Error (e : error) : string :=
  match e with
  | errorString s => s
  | wrapError msg _ => msg
  end.

Definition Unwrap (e : error) : option error :=
  match e with
  | errorString _ => None
  | wrapError _ err => Some err
  end.

Definition errors_New (text : string) : error := errorString text.

(** [fmt.Errorf(prefix + "%w", err)] *)
Definition fmt_Errorf_w (prefix : string) (err : error) : error :=
  wrapError (prefix ++ Error err) err.

Fixpoint strings_HasPrefix (s prefix : string) {struct prefix} : bool :=
  match prefix, s with
  | EmptyString, _ => true
  | String _ _, EmptyString => false
  | String c p, String d t => Ascii.eqb c d && strings_HasPrefix t p
  end.

(** [strings.Contains(s, substr)]: [substr] occurs in [s]. *)
Fixpoint strings_Contains (s substr : string) : bool :=
  strings_HasPrefix s substr ||
  match s with
  | EmptyString => false
  | String _ t => strings_Contains t substr
  end.

(** [float32]: sign, mantissa and exponent of an IEEE 754 value, with the
    two zeros, the two infinities and NaN. *)
Definition float32 : Type := spec_float.

(** The values that a [float32] holds: 24 bits of precision and exponents
    below 128, the mantissa of a finite value in canonical form. *)
Definition float32_valid (x : float32) : bool := valid_binary 24 128 x.

(** [x != 0] on floats: false on both zeros, true on NaN. *)
Definition float32_neq_zero (x : float32) : bool :=
  match x with
  | S754_zero _ => false
  | _ => true
  end.

Definition is_finite (x : float32) : bool :=
  match x with
  | S754_zero _ | S754_finite _ _ _ => true
  | S754_infinity _ | S754_nan => false
  end.

(** [num / den] rounded to the nearest integer, ties to even
    ([0 <= num], [0 < den]): the rounding of strconv's decimal. *)
Definition round_half_even (num den : Z) : Z :=
  let q := (num / den)%Z in
  let r := (num mod den)%Z in
  if (2 * r <? den)%Z then q
  else if (den <? 2 * r)%Z then (q + 1)%Z
  else if Z.even q then q else (q + 1)%Z.

(** [|m * 2^e|] in hundredths, rounded. *)
Definition hundredths (m : positive) (e : Z) : Z :=
  if (0 <=? e)%Z then (Zpos m * 2 ^ e * 100)%Z
  else round_half_even (Zpos m * 100) (2 ^ (- e)).

Definition digit_char (d : Z) : ascii :=
  ascii_of_N (48 + Z.to_N d).

Fixpoint string_of_uint (u : uint) : string :=
  match u with
  | Nil => EmptyString
  | D0 u => String "0" (string_of_uint u)
  | D1 u => String "1" (string_of_uint u)
  | D2 u => String "2" (string_of_uint u)
  | D3 u => String "3" (string_of_uint u)
  | D4 u => String "4" (string_of_uint u)
  | D5 u => String "5" (string_of_uint u)
  | D6 u => String "6" (string_of_uint u)
  | D7 u => String "7" (string_of_uint u)
  | D8 u => String "8" (string_of_uint u)
  | D9 u => String "9" (string_of_uint u)
  end.

(** [strconv.Itoa] on a natural number. *)
Definition decimal (n : Z) : string := string_of_uint (N.to_uint (Z.to_N n)).

Definition sign_string (s : bool) : string := if s then "-" else EmptyString.

(** [n] hundredths printed as [i.dd]. *)
Definition fixed2 (n : Z) : string :=
  decimal (n / 100) ++ "." ++
  String (digit_char ((n / 10) mod 10)) (String (digit_char (n mod 10)) EmptyString).

(** [fmt.Sprintf("%.2f", x)] for a [float32]: strconv converts the exact
    binary value to decimal and rounds it to two digits after the point
    (ties to even); the sign of a negative value is kept when the digits
    round to zero; infinities and NaN print as words. *)
Definition fmt_Sprintf_2f (x : float32) : string :=
  match x with
  | S754_nan => "NaN"
  | S754_infinity false => "+Inf"
  | S754_infinity true => "-Inf"
  | S754_zero s => sign_string s ++ "0.00"
  | S754_finite s m e => sign_string s ++ fixed2 (hundredths m e)
  end.

(** The shape [[-]d+.dd]. *)
Definition is_digit (c : ascii) : bool :=
  (48 <=? nat_of_ascii c)%nat && (nat_of_ascii c <=? 57)%nat.

Fixpoint digits_then_fraction (seen : bool) (s : string) : bool :=
  match s with
  | EmptyString => false
  | String c t =>
      if Ascii.eqb c "." then
        seen &&
        match t with
        | String d1 (String d2 EmptyString) => is_digit d1 && is_digit d2
        | _ => false
        end
      else is_digit c && digits_then_fraction true t
  end.

Definition two_decimal_digits (s : string) : bool :=
  match s with
  | EmptyString => false
  | String c t =>
      if Ascii.eqb c "-" then digits_then_fraction false t
      else digits_then_fraction false s
  end.

Fixpoint all_digits (s : string) : bool :=
  match s with
  | EmptyString => true
  | String c t => is_digit c && all_digits t
  end.

End Go.
Import Go.


(** ** Data model (audio.go, lines 13-43) *)

Definition Whisper1 : string := "whisper-1".

Definition AudioResponseFormat : Type := string.
Definition AudioResponseFormatJSON : AudioResponseFormat := "json".
Definition AudioResponseFormatSRT : AudioResponseFormat := "srt".
Definition AudioResponseFormatVTT : AudioResponseFormat := "vtt".

(** [FileBytes *[]byte] and [FileName *string] are pointers: [None] is [nil]. *)
Record AudioRequest : Type := {
  Model : string;
  FilePath : string;
  FileBytes : option (list byte);
  FileName : option string;
  Prompt : string;
  Temperature : float32;
  Language : string;
  Format : AudioResponseFormat
}.

Record AudioResponse : Type := { Text : string }.

(** The zero value [AudioResponse{}]. *)
Definition AudioResponse_zero : AudioResponse := {| Text := EmptyString |}.

(** The request with the bytes variant cleared. *)
Definition without_bytes (r : AudioRequest) : AudioRequest :=
  {| Model := Model r; FilePath := FilePath r; FileBytes := None;
     FileName := None; Prompt := Prompt r; Temperature := Temperature r;
     Language := Language r; Format := Format r |}.

(** [HasJSONResponse] (lines 93-95). *)
Definition HasJSONResponse (r : AudioRequest) : bool :=
  (Format r =? EmptyString) || (Format r =? AudioResponseFormatJSON).

(** ** The collaborators of audio.go *)

(** A call that returns [(value, err)]. *)
Inductive returns (A : Type) : Type :=
| Ok (a : A)
| Fail (err : error).
Arguments Ok {A} a.
Arguments Fail {A} err.

Definition err_of {A : Type} (r : returns A) : option error :=
  match r with
  | Ok _ => None
  | Fail err => Some err
  end.

(** [*os.File]: an open handle. *)
Record os_File : Type := { Fd : Z; Name : string }.

Record http_Request : Type := {
  Method : string;
  URL : string;
  Body : list byte;
  Header : list (string * string)
}.

Definition Header_Add (req : http_Request) (key value : string) : http_Request :=
  {| Method := Method req; URL := URL req; Body := Body req;
     Header := Header req ++ [(key, value)] |}.

(** The interface [formBuilder], whose declaration is outside audio.go: the
    five methods the code calls, each acting on the builder's state, and
    the buffer the builder was created over ([&formBody]). *)
Class formBuilder (B : Type) : Type := {
  createFormFile : string -> os_File -> B -> option error * B;
  createFormFileFromBytes : string -> string -> list byte -> B -> option error * B;
  writeField : string -> string -> B -> option error * B;
  close : B -> option error * B;
  formDataContentType : B -> string;
  formBody : B -> list byte
}.

(** What audio.go takes from the operating system and from net/http and
    encoding/json. *)
Class Platform : Type := {
  os_Open : string -> returns os_File;
  http_NewRequestWithContext : string -> string -> list byte -> returns http_Request;
  json_Decode : list byte -> returns AudioResponse
}.

(** The fields and methods of [Client] that audio.go uses; [httpDo] is the
    configured transport followed by the status check: the body of a
    successful reply, or the error. *)
Record Client (B : Type) : Type := {
  createFormBuilder : B;
  fullURL : string -> string;
  httpDo : http_Request -> returns (list byte)
}.
Arguments createFormBuilder {B} c.
Arguments fullURL {B} c suffix.
Arguments httpDo {B} c req.

(** The second argument of [sendRequest]: [&response] or [&response.Text]. *)
Inductive target : Type := IntoResponse | IntoText.

(** The calls that leave audio.go, with the error each returned. *)
Inductive Event : Type :=
| EvOpen (path : string) (err : option error)
| EvFileClose (f : os_File)
| EvCreateFormFile (fieldname : string) (f : os_File) (err : option error)
| EvCreateFormFileFromBytes (fieldname fileName : string) (data : list byte)
    (err : option error)
| EvWriteField (fieldname value : string) (err : option error)
| EvClose (err : option error)
| EvNewRequest (method url : string) (err : option error)
| EvSend (req : http_Request) (v : target).

(** Outcome of a Go function: it returns, or it panics. *)
Inductive res (A : Type) : Type :=
| Val (a : A)
| Panicked.
Arguments Val {A} a.
Arguments Panicked {A}.

Section Model.

Context {B : Type} `{formBuilder B} `{Platform}.

(** The state a call runs in: the form builder and the trace so far. *)
Record World : Type := { builder : B; trace : list Event }.

Definition M (A : Type) : Type := World -> res A * World.

Definition ret {A : Type} (a : A) : M A := fun w => (Val a, w).

Definition bind {A A' : Type} (m : M A) (k : A -> M A') : M A' :=
  fun w =>
    match m w with
    | (Val a, w') => k a w'
    | (Panicked, w') => (Panicked, w')
    end.

Definition emit (e : Event) : M unit :=
  fun w => (Val tt, {| builder := builder w; trace := trace w ++ [e] |}).

(** [*p] *)
Definition deref {A : Type} (p : option A) : M A :=
  fun w =>
    match p with
    | Some a => (Val a, w)
    | None => (Panicked, w)
    end.

(** [defer d] followed by [body]: [d] runs when [body] is left, whether
    it returned or panicked. *)
Definition defer {A : Type} (d : M unit) (body : M A) : M A :=
  fun w =>
    let (r, w') := body w in
    match d w' with
    | (Val _, w'') => (r, w'')
    | (Panicked, w'') => (Panicked, w'')
    end.

(** A method call on the builder [b]. *)
Definition call (op : B -> option error * B) (ev : option error -> Event)
  : M (option error) :=
  fun w =>
    let (err, b') := op (builder w) in
    (Val err, {| builder := b'; trace := trace w ++ [ev err] |}).

Definition b_createFormFile (fieldname : string) (f : os_File) :=
  call (createFormFile fieldname f) (EvCreateFormFile fieldname f).
Definition b_createFormFileFromBytes (fieldname fileName : string) (data : list byte) :=
  call (createFormFileFromBytes fieldname fileName data)
       (EvCreateFormFileFromBytes fieldname fileName data).
Definition b_writeField (fieldname value : string) :=
  call (writeField fieldname value) (EvWriteField fieldname value).
Definition b_close := call close EvClose.

Definition do_os_Open (path : string) : M (returns os_File) :=
  fun w =>
    let r := os_Open path in
    (Val r, {| builder := builder w; trace := trace w ++ [EvOpen path (err_of r)] |}).

Definition f_Close (f : os_File) : M unit := emit (EvFileClose f).

(** [err := c; if err != nil { return wrap(err) }; k] *)
Definition guarded (c : M (option error)) (wrap : error -> error)
  (k : M (option error)) : M (option error) :=
  bind c (fun err =>
    match err with
    | Some e => ret (Some (wrap e))
    | None => k
    end).

(** [if cond { err = c; if err != nil { return wrap(err) } }; k] *)
Definition guarded_if (cond : bool) (c : M (option error)) (wrap : error -> error)
  (k : M (option error)) : M (option error) :=
  if cond then guarded c wrap k else k.

(** audioMultipartForm, lines 131-169: the fields after the file. *)
Definition writeFields (request : AudioRequest) : M (option error) :=
  guarded (b_writeField "model" (Model request))
    (fmt_Errorf_w "writing model name: ")
  (guarded_if (negb (Prompt request =? EmptyString))
    (b_writeField "prompt" (Prompt request))
    (fmt_Errorf_w "writing prompt: ")
  (guarded_if (negb (Format request =? EmptyString))
    (b_writeField "response_format" (Format request))
    (fmt_Errorf_w "writing format: ")
  (guarded_if (float32_neq_zero (Temperature request))
    (b_writeField "temperature" (fmt_Sprintf_2f (Temperature request)))
    (fmt_Errorf_w "writing temperature: ")
  (guarded_if (negb (Language request =? EmptyString))
    (b_writeField "language" (Language request))
    (fmt_Errorf_w "writing language: ")
  b_close)))).

(** [request.FileName == nil || strings.Contains( *request.FileName, ".") == false],
    the right operand evaluated only when the left one is false. *)
Definition fileName_missing_extension (request : AudioRequest) : M bool :=
  match FileName request with
  | None => ret true
  | Some _ =>
      bind (deref (FileName request)) (fun name =>
      ret (Bool.eqb (strings_Contains name ".") false))
  end.

(** audioMultipartForm (lines 99-170). *)
Definition audioMultipartForm (request : AudioRequest) : M (option error) :=
  if negb (FilePath request =? EmptyString) then
    bind (do_os_Open (FilePath request)) (fun r =>
      match r with
      | Fail err => ret (Some (fmt_Errorf_w "opening audio file: " err))
      | Ok f =>
          defer (f_Close f)
            (guarded (b_createFormFile "file" f)
               (fmt_Errorf_w "creating form file: ")
               (writeFields request))
      end)
  else
    match FileBytes request with
    | Some _ =>
        bind (fileName_missing_extension request) (fun missing =>
          if missing then
            ret (Some (errors_New
              "FileName with correct extension is required while FileBytes is used"))
          else
            bind (deref (FileName request)) (fun name =>
            bind (deref (FileBytes request)) (fun data =>
            guarded (b_createFormFileFromBytes "file" name data)
              (fmt_Errorf_w "creating form bytes: ")
              (writeFields request))))
    | None =>
        ret (Some (errors_New "either FilePath or FileBytes should be specified"))
    end.

(** Modelled from the spec: [sendRequest], a method of [Client] that is
    not in audio.go.  Section 4.3: the request is issued once through the
    transport; a transport failure is the error; with the response
    structure as target the body is decoded as a JSON object with a
    [text] field, a decode failure being the error; with the text as
    target the whole body, verbatim, becomes the text.  [response] is the
    caller's variable that the target points into. *)
Definition sendRequest (c : Client B) (req : http_Request) (v : target)
  (response : AudioResponse) : M (AudioResponse * option error) :=
  bind (emit (EvSend req v)) (fun _ =>
    match httpDo c req with
    | Fail err => ret (response, Some err)
    | Ok body =>
        match v with
        | IntoResponse =>
            match json_Decode body with
            | Ok decoded => ret (decoded, None)
            | Fail err => ret (response, Some err)
            end
        | IntoText => ret ({| Text := string_of_list_byte body |}, None)
        end
    end).

Definition do_NewRequest (method url : string) : M (returns http_Request) :=
  fun w =>
    let r := http_NewRequestWithContext method url (formBody (builder w)) in
    (Val r, {| builder := builder w;
               trace := trace w ++ [EvNewRequest method url (err_of r)] |}).

(** [builder := c.createFormBuilder(&formBody)] *)
Definition new_builder (c : Client B) : M unit :=
  fun w => (Val tt, {| builder := createFormBuilder c; trace := trace w |}).

Definition contentType : M string :=
  fun w => (Val (formDataContentType (builder w)), w).

(** callAudioAPI (lines 62-90). *)
Definition callAudioAPI (c : Client B) (request : AudioRequest)
  (endpointSuffix : string) : M (AudioResponse * option error) :=
  let response := AudioResponse_zero in
  bind (new_builder c) (fun _ =>
  bind (audioMultipartForm request) (fun err =>
  match err with
  | Some e => ret (AudioResponse_zero, Some e)
  | None =>
      let urlSuffix := ("/audio/" ++ endpointSuffix)%string in
      bind (do_NewRequest "POST" (fullURL c urlSuffix)) (fun r =>
      match r with
      | Fail e => ret (AudioResponse_zero, Some e)
      | Ok req =>
          bind contentType (fun ct =>
          let req := Header_Add req "Content-Type" ct in
          bind (if HasJSONResponse request
                then sendRequest c req IntoResponse response
                else sendRequest c req IntoText response)
            (fun sent =>
               match snd sent with
               | Some e => ret (AudioResponse_zero, Some e)
               | None => ret (fst sent, None)
               end))
      end)
  end)).

(** CreateTranscription and CreateTranslation (lines 46-59). *)
Definition CreateTranscription (c : Client B) (request : AudioRequest) :=
  callAudioAPI c request "transcriptions".
Definition CreateTranslation (c : Client B) (request : AudioRequest) :=
  callAudioAPI c request "translations".

End Model.

Arguments World B : clear implicits.
Arguments M B A : clear implicits.

(** ** Reading a trace *)

(** The error a call returned ([nil] for the calls that return none). *)
Definition ev_err (e : Event) : option error :=
  match e with
  | EvOpen _ err | EvCreateFormFile _ _ err | EvCreateFormFileFromBytes _ _ _ err
  | EvWriteField _ _ err | EvClose err | EvNewRequest _ _ err => err
  | EvFileClose _ | EvSend _ _ => None
  end.

(** What a form field holds. *)
Inductive FieldContent : Type :=
| FromFile (f : os_File)
| FromBytes (fileName : string) (data : list byte)
| TextValue (value : string).

(** The form field a call wrote, when it is a write that succeeded. *)
Definition written (e : Event) : option (string * FieldContent) :=
  match e with
  | EvCreateFormFile n f None => Some (n, FromFile f)
  | EvCreateFormFileFromBytes n fileName data None => Some (n, FromBytes fileName data)
  | EvWriteField n v None => Some (n, TextValue v)
  | _ => None
  end.

(** The fields of the form, in the order they were written. *)
Fixpoint formFields (evs : list Event) : list (string * FieldContent) :=
  match evs with
  | [] => []
  | e :: evs' =>
      match written e with
      | Some field => field :: formFields evs'
      | None => formFields evs'
      end
  end.

(** A call on the form builder (as opposed to the file system or HTTP). *)
Definition is_builder_call (e : Event) : bool :=
  match e with
  | EvCreateFormFile _ _ _ | EvCreateFormFileFromBytes _ _ _ _
  | EvWriteField _ _ _ | EvClose _ => true
  | _ => false
  end.

(** A step of the assembly: opening the file or a call on the builder. *)
Definition is_assembly_step (e : Event) : bool :=
  match e with
  | EvOpen _ _ => true
  | _ => is_builder_call e
  end.

Definition is_http (e : Event) : bool :=
  match e with
  | EvNewRequest _ _ _ | EvSend _ _ => true
  | _ => false
  end.

Definition writes_field (fieldname : string) (e : Event) : bool :=
  match e with
  | EvCreateFormFile n _ _ | EvCreateFormFileFromBytes n _ _ _
  | EvWriteField n _ _ => n =? fieldname
  | _ => false
  end.

(** [if cond { ... }]: a field that is written only under its condition. *)
Definition optional_field (cond : bool) (fieldname value : string)
  : list (string * FieldContent) :=
  if cond then [(fieldname, TextValue value)] else [].

(** The text fields of a request, by the omission rules of lines 131-166. *)
Definition textFields (request : AudioRequest) : list (string * FieldContent) :=
  [("model", TextValue (Model request))]
  ++ optional_field (negb (Prompt request =? EmptyString)) "prompt" (Prompt request)
  ++ optional_field (negb (Format request =? EmptyString))
       "response_format" (Format request)
  ++ optional_field (float32_neq_zero (Temperature request))
       "temperature" (fmt_Sprintf_2f (Temperature request))
  ++ optional_field (negb (Language request =? EmptyString))
       "language" (Language request).

(** ** The assembly as a list of guarded calls

    Every call of audioMultipartForm on the builder has the same shape:
    the call, then a return of the wrapped error when it failed.  The
    function is compared below with the run of such a list. *)

(** The methods of the builder, with their arguments. *)
Inductive Call : Type :=
| CreateFormFile (fieldname : string) (f : os_File)
| CreateFormFileFromBytes (fieldname fileName : string) (data : list byte)
| WriteField (fieldname value : string)
| Close.

Definition event_of (c : Call) (err : option error) : Event :=
  match c with
  | CreateFormFile n f => EvCreateFormFile n f err
  | CreateFormFileFromBytes n fileName data => EvCreateFormFileFromBytes n fileName data err
  | WriteField n v => EvWriteField n v err
  | Close => EvClose err
  end.

Record Step : Type := { what : Call; wrap : error -> error }.

Definition fieldStep (fieldname value prefix : string) : Step :=
  {| what := WriteField fieldname value; wrap := fmt_Errorf_w prefix |}.

Definition closeStep : Step := {| what := Close; wrap := fun e => e |}.

Definition fileStep (f : os_File) : Step :=
  {| what := CreateFormFile "file" f; wrap := fmt_Errorf_w "creating form file: " |}.

Definition bytesStep (fileName : string) (data : list byte) : Step :=
  {| what := CreateFormFileFromBytes "file" fileName data;
     wrap := fmt_Errorf_w "creating form bytes: " |}.

(** Whether a step finalizes the form. *)
Definition finalizes (s : Step) : bool :=
  match what s with
  | Close => true
  | _ => false
  end.

Definition stepIf (cond : bool) (s : Step) : list Step :=
  if cond then [s] else [].

(** Lines 131-169 as steps. *)
Definition fieldSteps (request : AudioRequest) : list Step :=
  [fieldStep "model" (Model request) "writing model name: "]
  ++ stepIf (negb (Prompt request =? EmptyString))
       (fieldStep "prompt" (Prompt request) "writing prompt: ")
  ++ stepIf (negb (Format request =? EmptyString))
       (fieldStep "response_format" (Format request) "writing format: ")
  ++ stepIf (float32_neq_zero (Temperature request))
       (fieldStep "temperature" (fmt_Sprintf_2f (Temperature request))
          "writing temperature: ")
  ++ stepIf (negb (Language request =? EmptyString))
       (fieldStep "language" (Language request) "writing language: ")
  ++ [closeStep].

(** The trace of steps that all succeed. *)
Definition ok_events (steps : list Step) : list Event :=
  map (fun s => event_of (what s) None) steps.

(** How a list of guarded calls can end: every call succeeded, or one
    failed, its wrapped error is returned and the rest is not run. *)
Inductive Outcome (steps : list Step) : option error -> list Event -> Prop :=
| AllDone : Outcome steps None (ok_events steps)
| FailedAt (done : list Step) (s : Step) (rest : list Step) (e : error) :
    steps = done ++ s :: rest ->
    Outcome steps (Some (wrap s e)) (ok_events done ++ [event_of (what s) (Some e)]).

Definition FileName_error : error :=
  errors_New "FileName with correct extension is required while FileBytes is used".

Definition no_source_error : error :=
  errors_New "either FilePath or FileBytes should be specified".

Section Steps.

Context {B : Type} `{formBuilder B} `{Platform}.

Definition perform (c : Call) : B -> option error * B :=
  match c with
  | CreateFormFile n f => createFormFile n f
  | CreateFormFileFromBytes n fileName data => createFormFileFromBytes n fileName data
  | WriteField n v => writeField n v
  | Close => close
  end.

Fixpoint run_steps (steps : list Step) : M B (option error) :=
  match steps with
  | [] => ret None
  | s :: rest =>
      guarded (call (perform (what s)) (event_of (what s))) (wrap s) (run_steps rest)
  end.

(** The exits of audioMultipartForm, with what each returns and the
    calls it made. *)
Inductive AssemblyRun (request : AudioRequest) : option error -> list Event -> Prop :=
| OpenFails (e : error) :
    FilePath request <> EmptyString ->
    os_Open (FilePath request) = Fail e ->
    AssemblyRun request (Some (fmt_Errorf_w "opening audio file: " e))
      [EvOpen (FilePath request) (Some e)]
| FromPath (f : os_File) (r : option error) (evs : list Event) :
    FilePath request <> EmptyString ->
    os_Open (FilePath request) = Ok f ->
    Outcome (fileStep f :: fieldSteps request) r evs ->
    AssemblyRun request r
      (EvOpen (FilePath request) None :: evs ++ [EvFileClose f])
| BytesWithoutName (data : list byte) :
    FilePath request = EmptyString ->
    FileBytes request = Some data ->
    FileName request = None ->
    AssemblyRun request (Some FileName_error) []
| BytesWithoutExtension (data : list byte) (name : string) :
    FilePath request = EmptyString ->
    FileBytes request = Some data ->
    FileName request = Some name ->
    strings_Contains name "." = false ->
    AssemblyRun request (Some FileName_error) []
| FromBytesRun (data : list byte) (name : string) (r : option error)
    (evs : list Event) :
    FilePath request = EmptyString ->
    FileBytes request = Some data ->
    FileName request = Some name ->
    strings_Contains name "." = true ->
    Outcome (bytesStep name data :: fieldSteps request) r evs ->
    AssemblyRun request r evs
| NoSource :
    FilePath request = EmptyString ->
    FileBytes request = None ->
    AssemblyRun request (Some no_source_error) [].

(** The world with one more call in its trace. *)
Definition logged (w : World B) (e : Event) : World B :=
  {| builder := builder w; trace := trace w ++ [e] |}.

(** The world in which callAudioAPI runs the assembly. *)
Definition fresh (c : Client B) (w : World B) : World B :=
  {| builder := createFormBuilder c; trace := trace w |}.

(** The world after the request was built and sent with target [v]. *)
Definition after_send (w : World B) (url : string) (sent : http_Request)
  (v : target) : World B :=
  logged (logged w (EvNewRequest "POST" url None)) (EvSend sent v).

End Steps.

(** ** Test doubles *)

Module Doubles.

(** Modelled from the spec: the form encoder behind [createFormBuilder],
    which is not in audio.go.  Section 4.1: a text field can be written
    until the encoder is finalized; a file field from bytes fails when
    the field name was used before; a file field from a stream fails
    when the stream cannot be read; finalizing seals the encoder. *)
Record Encoder : Type := {
  parts : list (string * FieldContent);
  sealed : bool
}.

Definition emptyEncoder : Encoder := {| parts := []; sealed := false |}.

Definition add_part (fieldname : string) (content : FieldContent) (b : Encoder)
  : option error * Encoder :=
  if sealed b then (Some (errorString "multipart: writer is closed"), b)
  else (None, {| parts := parts b ++ [(fieldname, content)]; sealed := false |}).

Definition has_part (fieldname : string) (b : Encoder) : bool :=
  existsb (fun p => fst p =? fieldname) (parts b).

(** The stream of a handle can be read when the handle is a valid one. *)
Definition readable (f : os_File) : bool := (0 <=? Fd f)%Z.

Definition render_part (p : string * FieldContent) : list byte :=
  list_byte_of_string (fst p) ++
  match snd p with
  | FromFile f => list_byte_of_string (Name f)
  | FromBytes fileName data => list_byte_of_string fileName ++ data
  | TextValue v => list_byte_of_string v
  end.

#[export] Instance encoderBuilder : formBuilder Encoder := {
  createFormFile fieldname f b :=
    if readable f then add_part fieldname (FromFile f) b
    else (Some (errorString "read: bad file descriptor"), b);
  createFormFileFromBytes fieldname fileName data b :=
    if has_part fieldname b
    then (Some (errorString "multipart: duplicate field"), b)
    else add_part fieldname (FromBytes fileName data) b;
  writeField fieldname value b := add_part fieldname (TextValue value) b;
  close b := (None, {| parts := parts b; sealed := true |});
  formDataContentType _ := "multipart/form-data; boundary=boundary";
  formBody b := flat_map render_part (parts b)
}.

(** A builder whose calls succeed [n] times and fail from then on. *)
Definition countdown (n : nat) : option error * nat :=
  match n with
  | O => (Some (errorString "mock failure"), O)
  | S k => (None, k)
  end.

#[export] Instance failingBuilder : formBuilder nat := {
  createFormFile _ _ := countdown;
  createFormFileFromBytes _ _ _ := countdown;
  writeField _ _ := countdown;
  close := countdown;
  formDataContentType _ := "multipart/form-data; boundary=boundary";
  formBody _ := []
}.

(** The double-quote character. *)
Definition dq : string := String (ascii_of_nat 34) EmptyString.

(** The text before the value in an object with the one field [text]. *)
Definition text_object_prefix : string :=
  ("{" ++ dq ++ "text" ++ dq ++ ":" ++ dq)%string.

Fixpoint strip_prefix (prefix s : string) : option string :=
  match prefix, s with
  | EmptyString, _ => Some s
  | String c p, String d t => if Ascii.eqb c d then strip_prefix p t else None
  | String _ _, EmptyString => None
  end.

(** The characters before the next double quote, and what follows it. *)
Fixpoint until_quote (s : string) : option (string * string) :=
  match s with
  | EmptyString => None
  | String c t =>
      if Ascii.eqb c (ascii_of_nat 34) then Some (EmptyString, t)
      else
        match until_quote t with
        | Some (value, rest) => Some (String c value, rest)
        | None => None
        end
  end.

(** A decoder for replies of the form of an object with the one field
    [text] and a value without escapes; anything else is an error. *)
Definition decode_text_object (body : list byte) : returns AudioResponse :=
  match strip_prefix text_object_prefix (string_of_list_byte body) with
  | Some s =>
      match until_quote s with
      | Some (value, "}") => Ok {| Text := value |}
      | _ => Fail (errorString "unexpected end of JSON input")
      end
  | None => Fail (errorString "invalid character looking for beginning of value")
  end.

(** A file system with the one file [a.wav]. *)
#[export] Instance oneFile : Platform := {
  os_Open path :=
    if path =? "a.wav" then Ok {| Fd := 3; Name := path |}
    else Fail (errorString ("open " ++ path ++ ": no such file or directory"));
  http_NewRequestWithContext method url body :=
    Ok {| Method := method; URL := url; Body := body; Header := [] |};
  json_Decode := decode_text_object
}.

(** A client whose transport answers every request with [reply]. *)
Definition client {B : Type} (b0 : B) (reply : returns (list byte)) : Client B :=
  {| createFormBuilder := b0;
     fullURL := fun suffix => ("https://api.openai.com/v1" ++ suffix)%string;
     httpDo := fun _ => reply |}.

Definition start {B : Type} (b0 : B) : World B := {| builder := b0; trace := [] |}.

(** The world before a call on the encoder. *)
Definition w0 : World Encoder := start emptyEncoder.

Definition request0 : AudioRequest :=
  {| Model := Whisper1; FilePath := EmptyString; FileBytes := None;
     FileName := None; Prompt := EmptyString; Temperature := S754_zero false;
     Language := EmptyString; Format := EmptyString |}.

Definition with_path (path : string) (r : AudioRequest) : AudioRequest :=
  {| Model := Model r; FilePath := path; FileBytes := FileBytes r;
     FileName := FileName r; Prompt := Prompt r; Temperature := Temperature r;
     Language := Language r; Format := Format r |}.

Definition with_bytes (fileName : option string) (data : list byte)
  (r : AudioRequest) : AudioRequest :=
  {| Model := Model r; FilePath := FilePath r; FileBytes := Some data;
     FileName := fileName; Prompt := Prompt r; Temperature := Temperature r;
     Language := Language r; Format := Format r |}.

Definition with_format (format : AudioResponseFormat) (r : AudioRequest)
  : AudioRequest :=
  {| Model := Model r; FilePath := FilePath r; FileBytes := FileBytes r;
     FileName := FileName r; Prompt := Prompt r; Temperature := Temperature r;
     Language := Language r; Format := format |}.

Definition with_temperature (t : float32) (r : AudioRequest) : AudioRequest :=
  {| Model := Model r; FilePath := FilePath r; FileBytes := FileBytes r;
     FileName := FileName r; Prompt := Prompt r; Temperature := t;
     Language := Language r; Format := Format r |}.

Definition hello_reply : list byte :=
  list_byte_of_string (text_object_prefix ++ "hello" ++ dq ++ "}").

(** One half: [2^23 * 2^-24]. *)
Definition half : float32 := S754_finite false 8388608 (-24).

(** A request from [a.wav] with every optional parameter set. *)
Definition full_request : AudioRequest :=
  {| Model := Whisper1; FilePath := "a.wav"; FileBytes := None;
     FileName := None; Prompt := "English"; Temperature := half;
     Language := "en"; Format := AudioResponseFormatSRT |}.

(** The client over the encoder whose transport answers with the object
    whose text is [hello]. *)
Definition hello_client : Client Encoder := client emptyEncoder (Ok hello_reply).

(** The client over a builder whose third call fails. *)
Definition failing_client : Client nat := client 2%nat (Ok hello_reply).

Definition transcriptions_url : string :=
  "https://api.openai.com/v1/audio/transcriptions".

(** The request that [http.NewRequestWithContext] returns for a body. *)
Definition post (body : list byte) : http_Request :=
  {| Method := "POST"; URL := transcriptions_url; Body := body; Header := [] |}.

End Doubles.

(** ** Further readers of traces, and further doubles *)

(** The call that finalizes the form. *)
Definition is_finalize (e : Event) : bool :=
  match e with
  | EvClose _ => true
  | _ => false
  end.

(** The error that audioMultipartForm returns when the call [x] failed
    with [e]: the message names the stage; the error of [close] is
    returned as it is (lines 105, 111, 123, 133, 140, 148, 156, 164, 169). *)
Definition reported (x : Event) (e : error) : error :=
  match x with
  | EvOpen _ _ => fmt_Errorf_w "opening audio file: " e
  | EvCreateFormFile _ _ _ => fmt_Errorf_w "creating form file: " e
  | EvCreateFormFileFromBytes _ _ _ _ => fmt_Errorf_w "creating form bytes: " e
  | EvWriteField n _ _ =>
      if n =? "model" then fmt_Errorf_w "writing model name: " e
      else if n =? "prompt" then fmt_Errorf_w "writing prompt: " e
      else if n =? "response_format" then fmt_Errorf_w "writing format: " e
      else if n =? "temperature" then fmt_Errorf_w "writing temperature: " e
      else if n =? "language" then fmt_Errorf_w "writing language: " e
      else e
  | _ => e
  end.

(** The HTTP calls of one call of callAudioAPI: none, a request that could
    not be built, or a request built and sent once. *)
Inductive HttpCalls (url : string) : list Event -> Prop :=
| NoRequest : HttpCalls url []
| RequestNotBuilt (e : error) : HttpCalls url [EvNewRequest "POST" url (Some e)]
| RequestSent (sent : http_Request) (v : target) :
    HttpCalls url [EvNewRequest "POST" url None; EvSend sent v].

Section Frames.

Context {B : Type}.



End Frames.

Module MoreDoubles.

Import Doubles.

(** A platform on which no request can be built. *)
Definition noRequest : Platform := {|
  os_Open := @os_Open oneFile;
  http_NewRequestWithContext := fun _ _ _ =>
    Fail (errorString "net/http: invalid method");
  json_Decode := decode_text_object
|}.

(** The request from bytes named [clip.wav]. *)
Definition clip_request : AudioRequest :=
  with_bytes (Some "clip.wav") [x01; x02] request0.

(** A client that posts every operation to the same URL. *)
Definition local_client : Client Encoder :=
  {| createFormBuilder := emptyEncoder;
     fullURL := fun _ => "http://localhost:8080/";
     httpDo := fun _ => Ok hello_reply |}.

(** The request from [a.wav] with a Temperature of one half. *)
Definition warm_request : AudioRequest :=
  with_temperature half (with_path "a.wav" request0).


End MoreDoubles.

(** * Properties *)

(** ** The Go library functions *)

Module GoFacts.

(** [strings.Contains(s, ".")] holds exactly when the byte [.] is in [s]. *)
Lemma Contains_dot (s : string) :
  strings_Contains s "." = true <-> In "."%char (list_ascii_of_string s).
Proof.
  induction s as [|c t IH];
    cbn [strings_Contains strings_HasPrefix list_ascii_of_string In].
  - split; [discriminate | contradiction].
  - rewrite andb_true_r, orb_true_iff, IH, Ascii.eqb_eq.
    split; intros [E|E]; auto.
Qed.

Lemma Contains_dot_false (s : string) :
  ~ In "."%char (list_ascii_of_string s) -> strings_Contains s "." = false.
Proof.
  intros N. destruct (strings_Contains s ".") eqn:E; [|reflexivity].
  apply Contains_dot in E. contradiction.
Qed.

Lemma digit_char_is_digit (d : Z) :
  (0 <= d < 10)%Z -> is_digit (digit_char d) = true.
Proof.
  intros R.
  assert (C : (d = 0 \/ d = 1 \/ d = 2 \/ d = 3 \/ d = 4 \/ d = 5 \/ d = 6
               \/ d = 7 \/ d = 8 \/ d = 9)%Z) by lia.
  repeat (destruct C as [C|C]; [subst d; reflexivity|]).
  subst d; reflexivity.
Qed.

Lemma string_of_uint_digits (u : uint) : all_digits (string_of_uint u) = true.
Proof. induction u; simpl; auto. Qed.

Lemma string_of_uint_nonempty (u : uint) :
  u <> Nil -> string_of_uint u <> EmptyString.
Proof. destruct u; simpl; congruence. Qed.

Lemma decimal_digits (n : Z) : all_digits (decimal n) = true.
Proof. apply string_of_uint_digits. Qed.

Lemma decimal_nonempty (n : Z) : decimal n <> EmptyString.
Proof.
  unfold decimal. apply string_of_uint_nonempty.
  destruct (Z.to_N n); simpl.
  - discriminate.
  - apply Unsigned.to_uint_nonnil.
Qed.

Lemma is_digit_not_point (c : ascii) : is_digit c = true -> Ascii.eqb c "." = false.
Proof.
  intros D. destruct (Ascii.eqb c ".") eqn:E; [|reflexivity].
  apply Ascii.eqb_eq in E. subst c. discriminate.
Qed.

Lemma is_digit_not_minus (c : ascii) : is_digit c = true -> Ascii.eqb c "-" = false.
Proof.
  intros D. destruct (Ascii.eqb c "-") eqn:E; [|reflexivity].
  apply Ascii.eqb_eq in E. subst c. discriminate.
Qed.

Lemma digits_then_fraction_app (ds : string) (d1 d2 : ascii) :
  all_digits ds = true ->
  is_digit d1 = true -> is_digit d2 = true ->
  forall seen : bool,
    (seen = true \/ ds <> EmptyString) ->
    digits_then_fraction seen
      (ds ++ String "." (String d1 (String d2 EmptyString))) = true.
Proof.
  intros A D1 D2.
  induction ds as [|c t IH]; intros seen S.
  - destruct S as [S|S]; [|congruence]. subst seen.
    cbn [String.append digits_then_fraction].
    rewrite Ascii.eqb_refl, D1, D2. reflexivity.
  - cbn [all_digits] in A. apply andb_true_iff in A as [Dc At].
    cbn [String.append digits_then_fraction].
    rewrite (is_digit_not_point c Dc), Dc. simpl.
    apply IH; auto.
Qed.

Lemma fixed2_shape (n : Z) : digits_then_fraction false (fixed2 n) = true.
Proof.
  unfold fixed2.
  apply digits_then_fraction_app.
  - apply decimal_digits.
  - apply digit_char_is_digit. apply Z.mod_pos_bound. lia.
  - apply digit_char_is_digit. apply Z.mod_pos_bound. lia.
  - right. apply decimal_nonempty.
Qed.

Lemma fixed2_head (n : Z) :
  exists c t, fixed2 n = String c t /\ is_digit c = true.
Proof.
  unfold fixed2.
  pose proof (decimal_digits (n / 100)) as A.
  pose proof (decimal_nonempty (n / 100)) as N.
  destruct (decimal (n / 100)) as [|c t]; [congruence|].
  cbn [all_digits] in A. apply andb_true_iff in A as [Dc _].
  simpl. eauto.
Qed.

(** A finite value prints as [[-]d+.dd]. *)
Lemma Sprintf_2f_finite (x : float32) :
  is_finite x = true -> two_decimal_digits (fmt_Sprintf_2f x) = true.
Proof.
  destruct x as [s|s| |s m e]; simpl; try discriminate; intros _.
  - destruct s; reflexivity.
  - destruct s; cbn [sign_string String.append].
    + cbn [two_decimal_digits]. rewrite Ascii.eqb_refl. apply fixed2_shape.
    + destruct (fixed2_head (hundredths m e)) as (c & t & E & D).
      pose proof (fixed2_shape (hundredths m e)) as S.
      rewrite E in *. cbn [two_decimal_digits].
      rewrite (is_digit_not_minus c D). exact S.
Qed.

(** The words for the values that are not finite have no digits. *)
Lemma Sprintf_2f_not_finite (x : float32) :
  is_finite x = false -> two_decimal_digits (fmt_Sprintf_2f x) = false.
Proof.
  destruct x as [s|s| |s m e]; simpl; try discriminate; intros _.
  - destruct s; reflexivity.
  - reflexivity.
Qed.

(** [errors.Unwrap] of a wrapped error is the error that was wrapped, and
    its message ends with the message of that error. *)
Lemma Unwrap_Errorf (prefix : string) (err : error) :
  Unwrap (fmt_Errorf_w prefix err) = Some err /\
  Error (fmt_Errorf_w prefix err) = (prefix ++ Error err)%string.
Proof. split; reflexivity. Qed.

(** One half, three eighths and five eighths (a tie, to the even digit). *)
Example Sprintf_2f_examples :
  fmt_Sprintf_2f (S754_finite false 1 (-1)) = "0.50" /\
  fmt_Sprintf_2f (S754_finite false 3 (-3)) = "0.38" /\
  fmt_Sprintf_2f (S754_finite false 5 (-3)) = "0.62" /\
  fmt_Sprintf_2f (S754_finite true 1 (-10)) = "-0.00".
Proof. repeat split. Qed.

(** [round_half_even] is at most half a unit away from the quotient. *)
Lemma round_half_even_nearest (num den : Z) :
  (0 < den)%Z ->
  (Z.abs (2 * num - 2 * den * round_half_even num den) <= den)%Z.
Proof.
  intros D. unfold round_half_even.
  pose proof (Z.div_mod num den ltac:(lia)) as E.
  pose proof (Z.mod_pos_bound num den D) as R.
  destruct (2 * (num mod den) <? den)%Z eqn:L1;
    [apply Z.ltb_lt in L1; nia|apply Z.ltb_ge in L1].
  destruct (den <? 2 * (num mod den))%Z eqn:L2;
    [apply Z.ltb_lt in L2; nia|apply Z.ltb_ge in L2].
  destruct (Z.even (num / den)); nia.
Qed.

End GoFacts.

(** ** Reading traces *)

Lemma formFields_app (l1 l2 : list Event) :
  formFields (l1 ++ l2) = formFields l1 ++ formFields l2.
Proof.
  induction l1 as [|e l1 IH]; simpl; [reflexivity|].
  destruct (written e); simpl; now rewrite IH.
Qed.

Lemma ev_err_event_of (c : Call) (r : option error) : ev_err (event_of c r) = r.
Proof. destruct c; reflexivity. Qed.

Lemma event_of_builder_call (c : Call) (r : option error) :
  is_builder_call (event_of c r) = true.
Proof. destruct c; reflexivity. Qed.

Lemma builder_call_not_http (e : Event) :
  is_builder_call e = true -> is_http e = false.
Proof. destruct e; simpl; congruence. Qed.

Lemma ok_events_succeed (steps : list Step) :
  Forall (fun e => ev_err e = None) (ok_events steps).
Proof.
  induction steps; simpl; constructor; auto using ev_err_event_of.
Qed.

Lemma ok_events_builder_calls (steps : list Step) :
  Forall (fun e => is_builder_call e = true) (ok_events steps).
Proof.
  induction steps; simpl; constructor; auto using event_of_builder_call.
Qed.

(** The text fields that the steps of lines 131-169 write when all succeed. *)
Lemma formFields_fieldSteps (request : AudioRequest) :
  formFields (ok_events (fieldSteps request)) = textFields request.
Proof.
  unfold fieldSteps, textFields.
  destruct (negb (Prompt request =? EmptyString)),
           (negb (Format request =? EmptyString)),
           (float32_neq_zero (Temperature request)),
           (negb (Language request =? EmptyString)); reflexivity.
Qed.

(** Every call a run of steps makes is one of the steps. *)
Lemma Outcome_events (steps : list Step) (r : option error) (evs : list Event) :
  Outcome steps r evs ->
  Forall (fun e => exists s err, In s steps /\ e = event_of (what s) err) evs.
Proof.
  intros O. destruct O as [|done s rest e E].
  - unfold ok_events. apply Forall_forall. intros x I.
    apply in_map_iff in I as (s & <- & I). eauto.
  - subst steps. apply Forall_app. split.
    + unfold ok_events. apply Forall_forall. intros x I.
      apply in_map_iff in I as (s' & <- & I).
      exists s', None. split; [apply in_or_app; auto | reflexivity].
    + constructor; [|constructor].
      exists s, (Some e). split; [apply in_or_app; simpl; auto | reflexivity].
Qed.

Lemma Outcome_builder_calls (steps : list Step) (r : option error) (evs : list Event) :
  Outcome steps r evs -> Forall (fun e => is_builder_call e = true) evs.
Proof.
  intros O. apply Outcome_events in O.
  eapply Forall_impl; [|exact O].
  intros e (s & err & _ & ->). apply event_of_builder_call.
Qed.

Lemma Outcome_cons (s : Step) (steps : list Step) (r : option error)
  (evs : list Event) :
  Outcome steps r evs ->
  Outcome (s :: steps) r (event_of (what s) None :: evs).
Proof.
  intros O. destruct O as [|done s' rest e E].
  - apply (AllDone (s :: steps)).
  - subst steps. apply (FailedAt (s :: done ++ s' :: rest) (s :: done) s' rest e).
    reflexivity.
Qed.

(** A run that returns no error made every call, and each succeeded. *)
Lemma Outcome_success (steps : list Step) (evs : list Event) :
  Outcome steps None evs -> evs = ok_events steps.
Proof.
  intros O. inversion O; reflexivity.
Qed.

(** A run that returns an error ends with the call that failed. *)
Lemma Outcome_failure (steps : list Step) (err : error) (evs : list Event) :
  Outcome steps (Some err) evs ->
  exists done s rest e,
    steps = done ++ s :: rest /\ err = wrap s e /\
    evs = ok_events done ++ [event_of (what s) (Some e)].
Proof.
  intros O. inversion O as [|done s rest e E]; subst.
  exists done, s, rest, e. auto.
Qed.

Lemma prefix_of_front {A : Type} (done : list A) (s : A) (rest front : list A) (c : A) :
  done ++ s :: rest = front ++ [c] -> exists tail, front = done ++ tail.
Proof.
  revert front. induction done as [|d done IH]; intros front E.
  - now exists front.
  - destruct front as [|x front]; simpl in E.
    + injection E as _ E. destruct done; discriminate.
    + injection E as -> E. destruct (IH _ E) as [tail ->]. now exists tail.
Qed.

Lemma fieldSteps_front (request : AudioRequest) :
  exists front,
    fieldSteps request = front ++ [closeStep] /\
    Forall (fun s => finalizes s = false) front.
Proof.
  unfold fieldSteps.
  destruct (negb (Prompt request =? EmptyString)),
           (negb (Format request =? EmptyString)),
           (float32_neq_zero (Temperature request)),
           (negb (Language request =? EmptyString)); simpl;
    match goal with
    | |- exists front, ?l = _ /\ _ => exists (removelast l)
    end; simpl; (split; [reflexivity | repeat constructor]).
Qed.

(** In a run that fails, the form was not finalized. *)
Lemma failure_before_finalize (first : Step) (request : AudioRequest)
  (err : error) (evs : list Event) :
  finalizes first = false ->
  Outcome (first :: fieldSteps request) (Some err) evs ->
  ~ In (EvClose None) evs.
Proof.
  intros F O I.
  apply Outcome_failure in O as (done & s & rest & e & E & _ & ->).
  destruct (fieldSteps_front request) as (front & Efs & NF).
  rewrite Efs in E. change (first :: front ++ [closeStep])
    with ((first :: front) ++ [closeStep]) in E.
  symmetry in E. apply prefix_of_front in E as [tail E].
  assert (ND : Forall (fun s => finalizes s = false) done).
  { assert (NA : Forall (fun s => finalizes s = false) (first :: front))
      by (constructor; auto).
    rewrite E in NA. apply Forall_app in NA. tauto. }
  apply in_app_or in I as [I|I].
  - unfold ok_events in I. apply in_map_iff in I as (s' & E' & I).
    rewrite Forall_forall in ND. specialize (ND _ I).
    unfold finalizes in ND. destruct (what s'); simpl in E'; congruence.
  - simpl in I. destruct I as [I|[]]. destruct (what s); simpl in I; congruence.
Qed.

(** After the call that failed, nothing but what follows it in [post]. *)
Lemma nothing_after_failure (pre : list Event) (x : Event) (post : list Event)
  (P : Event -> Prop) :
  Forall (fun e => ev_err e = None) pre ->
  Forall P post ->
  forall before e after,
    pre ++ x :: post = before ++ e :: after ->
    ev_err e <> None ->
    Forall P after.
Proof.
  intros OK. induction OK as [|p pre Hp OK IH]; intros Post before e after E F.
  - destruct before as [|b before]; simpl in E.
    + injection E as _ <-. exact Post.
    + injection E as _ E. rewrite E in Post.
      apply Forall_app in Post as [_ Post]. now inversion Post.
  - destruct before as [|b before]; simpl in E.
    + injection E as <- _. contradiction.
    + injection E as _ E. now apply (IH Post before e after).
Qed.

(** ** The function and its runs *)

Section Assembly.

Context {B : Type} `{formBuilder B} `{Platform}.

Lemma guarded_ext (c : M B (option error)) (wrap : error -> error)
  (k k' : M B (option error)) :
  (forall w, k w = k' w) ->
  forall w, guarded c wrap k w = guarded c wrap k' w.
Proof.
  intros E w. unfold guarded, bind.
  destruct (c w) as [[[e|]|] w']; auto.
Qed.

Lemma close_as_step (w : World B) : b_close w = run_steps [closeStep] w.
Proof.
  unfold b_close, run_steps, guarded, bind, call. simpl.
  destruct (close (builder w)) as [[e|] b']; reflexivity.
Qed.

(** Lines 131-169 are the run of [fieldSteps]. *)
Lemma writeFields_steps (request : AudioRequest) (w : World B) :
  writeFields request w = run_steps (fieldSteps request) w.
Proof.
  unfold writeFields, fieldSteps.
  destruct (negb (Prompt request =? EmptyString)),
           (negb (Format request =? EmptyString)),
           (float32_neq_zero (Temperature request)),
           (negb (Language request =? EmptyString));
    cbn [guarded_if stepIf app run_steps];
    repeat (apply guarded_ext; intros); apply close_as_step.
Qed.

Lemma run_steps_outcome (steps : list Step) (w : World B) :
  exists r w' evs,
    run_steps steps w = (Val r, w') /\
    trace w' = trace w ++ evs /\
    Outcome steps r evs.
Proof.
  revert w. induction steps as [|s rest IH]; intros w.
  - exists None, w, []. repeat split.
    + now rewrite app_nil_r.
    + apply (AllDone []).
  - cbn [run_steps]. unfold guarded, bind, call.
    destruct (perform (what s) (builder w)) as [[e|] b'].
    + eexists _, _, [event_of (what s) (Some e)]. repeat split.
      apply (FailedAt (s :: rest) [] s rest e). reflexivity.
    + destruct (IH {| builder := b';
                      trace := trace w ++ [event_of (what s) None] |})
        as (r & w' & evs & E & T & O).
      exists r, w', (event_of (what s) None :: evs). repeat split.
      * exact E.
      * rewrite T. simpl. now rewrite <- app_assoc.
      * now apply Outcome_cons.
Qed.

(** Every call of audioMultipartForm returns, by one of the exits of
    [AssemblyRun]. *)
Lemma audioMultipartForm_run (request : AudioRequest) (w : World B) :
  exists r w' evs,
    audioMultipartForm request w = (Val r, w') /\
    trace w' = trace w ++ evs /\
    AssemblyRun request r evs.
Proof.
  unfold audioMultipartForm.
  destruct (FilePath request =? EmptyString) eqn:P; cbn [negb].
  - apply String.eqb_eq in P.
    destruct (FileBytes request) as [data|] eqn:Bs.
    + unfold bind at 1. unfold fileName_missing_extension.
      destruct (FileName request) as [name|] eqn:N.
      * unfold bind at 1. cbn [deref ret].
        destruct (strings_Contains name ".") eqn:C; cbn [Bool.eqb].
        -- unfold bind at 1. cbn [deref]. unfold bind at 1. cbn [deref].
           destruct (run_steps_outcome (bytesStep name data :: fieldSteps request) w)
             as (r & w' & evs & E & T & O).
           exists r, w', evs. repeat split; auto.
           ++ rewrite <- E. cbn [run_steps]. apply guarded_ext.
              apply writeFields_steps.
           ++ now apply (FromBytesRun request data name).
        -- exists (Some FileName_error), w, []. repeat split.
           ++ now rewrite app_nil_r.
           ++ now apply (BytesWithoutExtension request data name).
      * exists (Some FileName_error), w, []. repeat split.
        -- now rewrite app_nil_r.
        -- now apply (BytesWithoutName request data).
    + exists (Some no_source_error), w, []. repeat split.
      * now rewrite app_nil_r.
      * now apply NoSource.
  - apply String.eqb_neq in P.
    unfold bind at 1, do_os_Open.
    destruct (os_Open (FilePath request)) as [f|e] eqn:O.
    + unfold defer.
      set (w1 := {| builder := builder w;
                    trace := trace w ++ [EvOpen (FilePath request) (err_of (Ok f))] |}).
      destruct (run_steps_outcome (fileStep f :: fieldSteps request) w1)
        as (r & w' & evs & E & T & Out).
      assert (E' : guarded (b_createFormFile "file" f)
                     (fmt_Errorf_w "creating form file: ")
                     (writeFields request) w1 = (Val r, w')).
      { rewrite <- E. cbn [run_steps]. apply guarded_ext.
        apply writeFields_steps. }
      rewrite E'. cbn [f_Close emit].
      eexists r, _, (EvOpen (FilePath request) None :: evs ++ [EvFileClose f]).
      repeat split.
      * cbn [trace]. rewrite T. subst w1. cbn [trace err_of].
        now rewrite <- !app_assoc.
      * now apply (FromPath request f).
    + eexists _, _, [EvOpen (FilePath request) (Some e)]. repeat split.
      now apply OpenFails.
Qed.

(** The calls of an assembly are to the file system and the builder. *)
Lemma AssemblyRun_no_http (request : AudioRequest) (r : option error)
  (evs : list Event) :
  AssemblyRun request r evs -> Forall (fun e => is_http e = false) evs.
Proof.
  intros R. destruct R as [e|f r evs _ _ O| | |data name r evs _ _ _ _ O|];
    try (repeat constructor; fail).
  - constructor; [reflexivity|]. apply Forall_app. split.
    + apply Outcome_builder_calls in O.
      eapply Forall_impl; [|exact O]. apply builder_call_not_http.
    + repeat constructor.
  - apply Outcome_builder_calls in O.
    eapply Forall_impl; [|exact O]. apply builder_call_not_http.
Qed.

End Assembly.

(** ** What the steps of a request are *)

Lemma In_fieldSteps (request : AudioRequest) (s : Step) :
  In s (fieldSteps request) ->
  what s = WriteField "model" (Model request)
  \/ (Prompt request <> EmptyString /\
      what s = WriteField "prompt" (Prompt request))
  \/ (Format request <> EmptyString /\
      what s = WriteField "response_format" (Format request))
  \/ (float32_neq_zero (Temperature request) = true /\
      what s = WriteField "temperature" (fmt_Sprintf_2f (Temperature request)))
  \/ (Language request <> EmptyString /\
      what s = WriteField "language" (Language request))
  \/ what s = Close.
Proof.
  unfold fieldSteps, stepIf. rewrite !in_app_iff.
  destruct (Prompt request =? EmptyString) eqn:P;
    destruct (Format request =? EmptyString) eqn:F;
    destruct (float32_neq_zero (Temperature request)) eqn:T;
    destruct (Language request =? EmptyString) eqn:L;
    try apply String.eqb_neq in P; try apply String.eqb_neq in F;
    try apply String.eqb_neq in L;
    cbn [negb In];
    intuition (subst; auto 10).
Qed.

Lemma Outcome_first (s : Step) (steps : list Step) (r : option error)
  (evs : list Event) :
  Outcome (s :: steps) r evs ->
  exists r0 evs', evs = event_of (what s) r0 :: evs'.
Proof.
  intros O. inversion O as [|done s' rest e E]; subst.
  - simpl. eauto.
  - destruct done as [|d done]; simpl in E; injection E as -> _; simpl; eauto.
Qed.

Section Runs.

Context {B : Type} `{formBuilder B} `{Platform}.

(** A write of a field other than [file] is one of the steps of lines
    131-169. *)
Lemma AssemblyRun_writes (request : AudioRequest) (r : option error)
  (evs : list Event) (e : Event) (fieldname : string) :
  AssemblyRun request r evs ->
  In e evs ->
  writes_field fieldname e = true ->
  fieldname = "file" \/
  exists s err, In s (fieldSteps request) /\ e = event_of (what s) err.
Proof.
  assert (Steps : forall first r evs,
    (exists x, what first = CreateFormFile "file" x) \/
    (exists n d, what first = CreateFormFileFromBytes "file" n d) ->
    Outcome (first :: fieldSteps request) r evs ->
    In e evs -> writes_field fieldname e = true ->
    fieldname = "file" \/
    exists s err, In s (fieldSteps request) /\ e = event_of (what s) err).
  { intros first r0 evs0 Hfirst O I W.
    apply Outcome_events in O. rewrite Forall_forall in O.
    destruct (O _ I) as (s & err & [<-|Is] & ->).
    - left. destruct Hfirst as [(x & E)|(n & d & E)]; rewrite E in W;
        cbn [writes_field event_of] in W; apply String.eqb_eq in W; now subst.
    - right. eauto. }
  intros R I W.
  destruct R as [e0|f r evs _ _ O| | |data name r evs _ _ _ _ O|];
    simpl in I; try contradiction.
  - destruct I as [<-|[]]. cbn [writes_field] in W. discriminate.
  - destruct I as [<-|I]; [cbn [writes_field] in W; discriminate|].
    apply in_app_or in I as [I|[<-|[]]];
      [|cbn [writes_field] in W; discriminate].
    apply (Steps (fileStep f) r evs); auto. left. now exists f.
  - apply (Steps (bytesStep name data) r evs); auto. right. now exists name, data.
Qed.

(** A run that fails did not finalize the form, and made no call after
    the one that failed, except for closing the file. *)
Lemma AssemblyRun_failure (request : AudioRequest) (err : error)
  (evs : list Event) :
  AssemblyRun request (Some err) evs ->
  ~ In (EvClose None) evs /\
  forall before e after,
    evs = before ++ e :: after ->
    ev_err e <> None ->
    Forall (fun e' => is_assembly_step e' = false) after.
Proof.
  intros R. remember (Some err) as r eqn:Er.
  assert (Empty : ~ In (EvClose None) [] /\
    forall before e after, [] = before ++ e :: after ->
      ev_err e <> None -> Forall (fun e' => is_assembly_step e' = false) after).
  { split; [intros []|]. intros [|b before] e after E; discriminate. }
  destruct R as [e0|f r evs _ _ O| | |data name r evs _ _ _ _ O|]; auto.
  - split.
    + intros [E|[]]. discriminate.
    + intros before e after E F.
      apply (nothing_after_failure [] (EvOpen (FilePath request) (Some e0)) []
               (fun e' => is_assembly_step e' = false))
        with (before := before) (e := e); auto.
  - subst r. split.
    + intros [E|I]; [discriminate|].
      apply in_app_or in I as [I|[E|[]]]; [|discriminate].
      now apply (failure_before_finalize (fileStep f) request err evs).
    + apply Outcome_failure in O as (done & s & rest & e1 & _ & _ & ->).
      intros before e after E F.
      apply (nothing_after_failure
               (EvOpen (FilePath request) None :: ok_events done)
               (event_of (what s) (Some e1)) [EvFileClose f]
               (fun e' => is_assembly_step e' = false))
        with (before := before) (e := e); auto.
      * constructor; [reflexivity | apply ok_events_succeed].
      * rewrite <- E. simpl. now rewrite <- app_assoc.
  - subst r. split.
    + now apply (failure_before_finalize (bytesStep name data) request err evs).
    + apply Outcome_failure in O as (done & s & rest & e1 & _ & _ & ->).
      intros before e after E F.
      apply (nothing_after_failure (ok_events done)
               (event_of (what s) (Some e1)) []
               (fun e' => is_assembly_step e' = false))
        with (before := before) (e := e); auto.
      apply ok_events_succeed.
Qed.

(** With a path, an error comes from a call that failed. *)
Lemma AssemblyRun_path_failure (request : AudioRequest) (err : error)
  (evs : list Event) :
  FilePath request <> EmptyString ->
  AssemblyRun request (Some err) evs ->
  exists e, In e evs /\ ev_err e <> None.
Proof.
  intros P R. remember (Some err) as r eqn:Er.
  destruct R as [e0|f r evs _ _ O| | |data name r evs ? _ _ _ O|];
    try contradiction.
  - eexists. split; [left; reflexivity|]. discriminate.
  - subst r.
    apply Outcome_failure in O as (done & s & rest & e1 & _ & _ & ->).
    exists (event_of (what s) (Some e1)). split.
    + right. apply in_or_app. left. apply in_or_app. right. now left.
    + rewrite ev_err_event_of. discriminate.
Qed.

End Runs.

(** ** The request assembly and the dispatch *)

Section Claims.

Context {B : Type} `{formBuilder B} `{Platform}.

(** With the bytes variant and no usable file name, the assembly returns
    the file-name error and leaves the world as it was. *)
Lemma bytes_validation (request : AudioRequest) (data : list byte) (w : World B) :
  FilePath request = EmptyString ->
  FileBytes request = Some data ->
  (FileName request = None \/
   exists name, FileName request = Some name /\ strings_Contains name "." = false) ->
  audioMultipartForm request w = (Val (Some FileName_error), w).
Proof.
  intros P Bs N. unfold audioMultipartForm.
  rewrite P, Bs. cbn [String.eqb negb].
  unfold bind at 1, fileName_missing_extension.
  destruct N as [N|(name & N & C)]; rewrite N.
  - reflexivity.
  - unfold bind at 1. cbn [deref ret]. rewrite C. reflexivity.
Qed.

(** When the assembly fails, callAudioAPI returns its error with the zero
    response, in the world the assembly left. *)
Lemma callAudioAPI_assembly_fails (c : Client B) (request : AudioRequest)
  (suffix : string) (w w1 : World B) (err : error) :
  audioMultipartForm request (fresh c w) = (Val (Some err), w1) ->
  callAudioAPI c request suffix w = (Val (AudioResponse_zero, Some err), w1).
Proof.
  intros A. unfold callAudioAPI, bind at 1, new_builder.
  unfold bind at 1. fold (fresh c w). rewrite A. reflexivity.
Qed.

(** When the form was assembled, the request built and the reply
    received, the reply is decoded by the target that [HasJSONResponse]
    selects. *)
Lemma callAudioAPI_sends (c : Client B) (request : AudioRequest)
  (suffix : string) (w w1 : World B) (req : http_Request) (body : list byte) :
  let url := fullURL c ("/audio/" ++ suffix) in
  let sent := Header_Add req "Content-Type" (formDataContentType (builder w1)) in
  audioMultipartForm request (fresh c w) = (Val None, w1) ->
  http_NewRequestWithContext "POST" url (formBody (builder w1)) = Ok req ->
  httpDo c sent = Ok body ->
  callAudioAPI c request suffix w =
    if HasJSONResponse request
    then (Val match json_Decode body with
              | Ok decoded => (decoded, None)
              | Fail e => (AudioResponse_zero, Some e)
              end,
          after_send w1 url sent IntoResponse)
    else (Val ({| Text := string_of_list_byte body |}, None),
          after_send w1 url sent IntoText).
Proof.
  intros url sent A N D. unfold callAudioAPI, bind at 1, new_builder.
  unfold bind at 1. fold (fresh c w). rewrite A.
  unfold bind at 1, do_NewRequest. fold url. rewrite N.
  unfold bind at 1, contentType. cbn [builder]. fold sent.
  destruct (HasJSONResponse request);
    unfold bind at 1, sendRequest; unfold bind at 1; cbn [emit];
    rewrite D.
  - destruct (json_Decode body); reflexivity.
  - reflexivity.
Qed.

(** C1. When the Format of a request is unset or [json], the dispatcher
    decodes the body of the reply as a JSON object into the result (a
    decode failure is returned with the zero response); when it is [srt]
    or [vtt], the whole body, verbatim, is the text of the result and
    the JSON decoder plays no part, whatever it would make of the body. *)
Theorem decoding_follows_format (c : Client B) (request : AudioRequest)
  (suffix : string) (w w1 : World B) (req : http_Request) (body : list byte) :
  let url := fullURL c ("/audio/" ++ suffix) in
  let sent := Header_Add req "Content-Type" (formDataContentType (builder w1)) in
  audioMultipartForm request (fresh c w) = (Val None, w1) ->
  http_NewRequestWithContext "POST" url (formBody (builder w1)) = Ok req ->
  httpDo c sent = Ok body ->
  ((Format request = EmptyString \/ Format request = AudioResponseFormatJSON) ->
   callAudioAPI c request suffix w =
     (Val match json_Decode body with
          | Ok decoded => (decoded, None)
          | Fail e => (AudioResponse_zero, Some e)
          end,
      after_send w1 url sent IntoResponse))
  /\
  ((Format request = AudioResponseFormatSRT \/ Format request = AudioResponseFormatVTT) ->
   callAudioAPI c request suffix w =
     (Val ({| Text := string_of_list_byte body |}, None),
      after_send w1 url sent IntoText)).
Proof.
  intros url sent A N D.
  pose proof (callAudioAPI_sends c request suffix w w1 req body A N D) as S.
  fold url sent in S. unfold HasJSONResponse in S.
  split; intros [F|F]; rewrite F in S; exact S.
Qed.

(** C2 (as the code has it). With neither input variant populated, the
    assembly fails with the error whose message is
    [either FilePath or FileBytes should be specified]; callAudioAPI
    returns it with the zero response, and its trace is the one it
    started with: no request is built or sent. *)
Theorem no_input_source (c : Client B) (request : AudioRequest)
  (suffix : string) (w : World B) :
  FilePath request = EmptyString ->
  FileBytes request = None ->
  audioMultipartForm request w = (Val (Some no_source_error), w) /\
  Error no_source_error = "either FilePath or FileBytes should be specified" /\
  callAudioAPI c request suffix w =
    (Val (AudioResponse_zero, Some no_source_error), fresh c w) /\
  trace (snd (callAudioAPI c request suffix w)) = trace w.
Proof.
  intros P Bs.
  assert (A : forall w0 : World B,
             audioMultipartForm request w0 = (Val (Some no_source_error), w0)).
  { intros w0. unfold audioMultipartForm. rewrite P, Bs. reflexivity. }
  assert (C : callAudioAPI c request suffix w =
              (Val (AudioResponse_zero, Some no_source_error), fresh c w))
    by (apply callAudioAPI_assembly_fails, A).
  repeat split; auto. now rewrite C.
Qed.

(** C3. With the bytes variant and a FileName that has no [.] in it (or
    no FileName), the assembly fails with the file-name error, and the
    world is the one it started in: nothing was written to the form. *)
Theorem bytes_need_extension (request : AudioRequest) (data : list byte)
  (w : World B) :
  FilePath request = EmptyString ->
  FileBytes request = Some data ->
  (forall name, FileName request = Some name ->
                ~ In "."%char (list_ascii_of_string name)) ->
  audioMultipartForm request w = (Val (Some FileName_error), w).
Proof.
  intros P Bs N. apply (bytes_validation request data w P Bs).
  destruct (FileName request) as [name|]; [right|now left].
  exists name. split; [reflexivity|].
  apply GoFacts.Contains_dot_false. now apply N.
Qed.

(** C9. With the bytes variant and a nil FileName, the assembly returns
    (it does not panic on the nil pointer) the error it returns for a
    file name without a [.], and the world is the one it started in. *)
Theorem nil_FileName_is_rejected (request : AudioRequest) (data : list byte)
  (w : World B) :
  FilePath request = EmptyString ->
  FileBytes request = Some data ->
  FileName request = None ->
  audioMultipartForm request w = (Val (Some FileName_error), w) /\
  forall (request' : AudioRequest) (data' : list byte) (name : string),
    FilePath request' = EmptyString ->
    FileBytes request' = Some data' ->
    FileName request' = Some name ->
    ~ In "."%char (list_ascii_of_string name) ->
    audioMultipartForm request' w = audioMultipartForm request w.
Proof.
  intros P Bs N.
  assert (A : audioMultipartForm request w = (Val (Some FileName_error), w))
    by (apply (bytes_validation request data w P Bs); now left).
  split; [exact A|].
  intros request' data' name P' Bs' N' D. rewrite A.
  apply (bytes_validation request' data' w P' Bs'). right.
  exists name. split; [exact N'|]. now apply GoFacts.Contains_dot_false.
Qed.

(** An assembly that succeeds made only calls that succeeded, and wrote
    the file and then the text fields of the request. *)
Lemma AssemblyRun_success (request : AudioRequest) (evs : list Event) :
  AssemblyRun request None evs ->
  Forall (fun e => ev_err e = None) evs /\
  exists file, formFields evs = ("file", file) :: textFields request.
Proof.
  intros R. remember None as r eqn:Er.
  destruct R as [e0|f r evs _ _ O| | |data name r evs _ _ _ _ O|];
    try discriminate; subst r; apply Outcome_success in O; subst evs.
  - split.
    + constructor; [reflexivity|]. apply Forall_app. split.
      * apply ok_events_succeed.
      * repeat constructor.
    + exists (FromFile f).
      change (ok_events (fileStep f :: fieldSteps request))
        with (EvCreateFormFile "file" f None :: ok_events (fieldSteps request)).
      cbn [formFields written app]. rewrite formFields_app.
      cbn [formFields written]. rewrite formFields_fieldSteps.
      now rewrite app_nil_r.
  - split.
    + apply ok_events_succeed.
    + exists (FromBytes name data).
      change (ok_events (bytesStep name data :: fieldSteps request))
        with (EvCreateFormFileFromBytes "file" name data None
                :: ok_events (fieldSteps request)).
      cbn [formFields written]. now rewrite formFields_fieldSteps.
Qed.

Lemma response_format_in_textFields (request : AudioRequest)
  (file : FieldContent) :
  In "response_format" (map fst (("file", file) :: textFields request)) <->
  Format request <> EmptyString.
Proof.
  unfold textFields, optional_field.
  destruct (Prompt request =? EmptyString),
           (Format request =? EmptyString) eqn:F,
           (float32_neq_zero (Temperature request)),
           (Language request =? EmptyString);
    first [apply String.eqb_eq in F | apply String.eqb_neq in F];
    simpl;
    (split; [intros I; repeat (destruct I as [I|I]; try discriminate I);
               solve [exact F | contradiction]
            | intros N; solve [contradiction | intuition]]).
Qed.

(** C5. The fields of a form that was assembled are, in this order:
    [file], [model], and then [prompt], [response_format],
    [temperature] and [language], each present exactly when its
    condition in the code holds; [response_format] is absent exactly
    when Format is empty. *)
Theorem form_field_order (request : AudioRequest) (w w' : World B) :
  audioMultipartForm request w = (Val None, w') ->
  exists evs file,
    trace w' = trace w ++ evs /\
    Forall (fun e => ev_err e = None) evs /\
    formFields evs =
      ("file", file)
      :: ("model", TextValue (Model request))
      :: optional_field (negb (Prompt request =? EmptyString))
           "prompt" (Prompt request)
      ++ optional_field (negb (Format request =? EmptyString))
           "response_format" (Format request)
      ++ optional_field (float32_neq_zero (Temperature request))
           "temperature" (fmt_Sprintf_2f (Temperature request))
      ++ optional_field (negb (Language request =? EmptyString))
           "language" (Language request) /\
    (In "response_format" (map fst (formFields evs)) <->
     Format request <> EmptyString).
Proof.
  intros A.
  destruct (audioMultipartForm_run request w) as (r & w0 & evs & E & T & R).
  rewrite A in E. injection E as <- <-.
  destruct (AssemblyRun_success request evs R) as (OK & file & F).
  exists evs, file. repeat split; auto.
  - rewrite F. intros I. now apply (response_format_in_textFields request file).
  - rewrite F. intros N. now apply (response_format_in_textFields request file).
Qed.

(** A write of the field [fieldname], other than [file], is the write of
    a step of lines 131-169 with that name. *)
Lemma field_write_is_a_step (request : AudioRequest) (r : option error)
  (evs : list Event) (e : Event) (fieldname : string) :
  AssemblyRun request r evs ->
  In e evs ->
  writes_field fieldname e = true ->
  fieldname <> "file" ->
  exists s value err,
    In s (fieldSteps request) /\ what s = WriteField fieldname value /\
    e = EvWriteField fieldname value err.
Proof.
  intros R I W N.
  destruct (AssemblyRun_writes request r evs e fieldname R I W)
    as [E|(s & err & Is & ->)]; [contradiction|].
  destruct (what s) as [n f|n fn d|n v|] eqn:Ws;
    cbn [event_of writes_field] in W; try discriminate W;
    apply String.eqb_eq in W; subst n.
  - apply In_fieldSteps in Is. rewrite Ws in Is.
    repeat (destruct Is as [Is|Is]); try discriminate Is;
      destruct Is as [_ Is]; discriminate Is.
  - apply In_fieldSteps in Is. rewrite Ws in Is.
    repeat (destruct Is as [Is|Is]); try discriminate Is;
      destruct Is as [_ Is]; discriminate Is.
  - exists s, v, err. auto.
Qed.

(** C4 (as the code has it). With a Temperature equal to zero, no call
    of the assembly writes a [temperature] field.  With a Temperature
    different from zero, the form of a request that assembles has a
    [temperature] field whose value is the [%.2f] rendering of the
    Temperature; that rendering has exactly two decimal digits when, and
    only when, the Temperature is finite. *)
Theorem temperature_field (request : AudioRequest) (w : World B) :
  (float32_neq_zero (Temperature request) = false ->
   exists r w' evs,
     audioMultipartForm request w = (Val r, w') /\
     trace w' = trace w ++ evs /\
     Forall (fun e => writes_field "temperature" e = false) evs)
  /\
  (float32_neq_zero (Temperature request) = true ->
   forall w', audioMultipartForm request w = (Val None, w') ->
   exists evs,
     trace w' = trace w ++ evs /\
     In ("temperature", TextValue (fmt_Sprintf_2f (Temperature request)))
        (formFields evs) /\
     two_decimal_digits (fmt_Sprintf_2f (Temperature request)) =
       is_finite (Temperature request)).
Proof.
  split.
  - intros Z.
    destruct (audioMultipartForm_run request w) as (r & w' & evs & E & T & R).
    exists r, w', evs. repeat split; auto.
    apply Forall_forall. intros e I.
    destruct (writes_field "temperature" e) eqn:W; [exfalso|reflexivity].
    destruct (field_write_is_a_step request r evs e "temperature" R I W)
      as (s & v & err & Is & Ws & _); [discriminate|].
    apply In_fieldSteps in Is. rewrite Ws in Is.
    repeat (destruct Is as [Is|Is]); try discriminate Is;
      destruct Is as [C Is]; try discriminate Is.
    congruence.
  - intros NZ w' A.
    destruct (audioMultipartForm_run request w) as (r & w0 & evs & E & T & R).
    rewrite A in E. injection E as <- <-.
    destruct (AssemblyRun_success request evs R) as (_ & file & F).
    exists evs. repeat split; auto.
    + rewrite F. unfold textFields. rewrite NZ. right.
      apply in_or_app. right. apply in_or_app. right. apply in_or_app. right.
      apply in_or_app. left. now left.
    + destruct (is_finite (Temperature request)) eqn:Fin.
      * now apply GoFacts.Sprintf_2f_finite.
      * now apply GoFacts.Sprintf_2f_not_finite.
Qed.

(** C6. When the assembly fails, callAudioAPI returns the zero response
    with the error of the assembly and makes no further call: none of
    the calls is to HTTP.  In the trace of the assembly no call follows
    the one that failed, except that the opened file is closed, and the
    form was not finalized. *)
Theorem assembly_failure_short_circuits (c : Client B) (request : AudioRequest)
  (suffix : string) (w w1 : World B) (err : error) :
  audioMultipartForm request (fresh c w) = (Val (Some err), w1) ->
  callAudioAPI c request suffix w = (Val (AudioResponse_zero, Some err), w1) /\
  exists evs,
    trace w1 = trace w ++ evs /\
    Forall (fun e => is_http e = false) evs /\
    ~ In (EvClose None) evs /\
    forall before e after,
      evs = before ++ e :: after ->
      ev_err e <> None ->
      Forall (fun e' => is_assembly_step e' = false) after.
Proof.
  intros A. split; [now apply callAudioAPI_assembly_fails|].
  destruct (audioMultipartForm_run request (fresh c w))
    as (r & w0 & evs & E & T & R).
  rewrite A in E. injection E as <- <-.
  exists evs. split; [exact T|]. split.
  - now apply (AssemblyRun_no_http request (Some err)).
  - now apply (AssemblyRun_failure request err).
Qed.

(** C7. When FilePath and FileBytes are both set, the assembly runs as
    for the request without the bytes and the file name: it opens the
    path, the file field comes from the opened file, no call creates the
    field from bytes, and an error, if any, is that of a call that
    failed. *)
Theorem path_takes_precedence (request : AudioRequest) (data : list byte)
  (w : World B) :
  FilePath request <> EmptyString ->
  FileBytes request = Some data ->
  audioMultipartForm request w = audioMultipartForm (without_bytes request) w /\
  exists r w' evs,
    audioMultipartForm request w = (Val r, w') /\
    trace w' = trace w ++ evs /\
    (forall n fileName d err,
       ~ In (EvCreateFormFileFromBytes n fileName d err) evs) /\
    (forall f, os_Open (FilePath request) = Ok f ->
       exists r0 evs',
         evs = EvOpen (FilePath request) None
               :: EvCreateFormFile "file" f r0 :: evs') /\
    (forall e, r = Some e -> exists ev, In ev evs /\ ev_err ev <> None).
Proof.
  intros P Bs. split.
  - unfold audioMultipartForm. cbn [FilePath without_bytes].
    apply String.eqb_neq in P. rewrite P. reflexivity.
  - destruct (audioMultipartForm_run request w) as (r & w' & evs & E & T & R).
    exists r, w', evs. repeat split; auto.
    + intros n fileName d err I.
      destruct R as [e0|f r evs _ _ O| | |data' name r evs P' _ _ _ O|];
        try contradiction.
      * destruct I as [I|[]]. discriminate.
      * destruct I as [I|I]; [discriminate|].
        apply in_app_or in I as [I|[I|[]]]; [|discriminate].
        apply Outcome_events in O. rewrite Forall_forall in O.
        destruct (O _ I) as (s & err' & [<-|Is] & E').
        -- discriminate.
        -- apply In_fieldSteps in Is.
           repeat (destruct Is as [Is|Is]);
             repeat match type of Is with
                    | _ /\ _ => destruct Is as [_ Is]
                    end;
             rewrite Is in E'; discriminate.
    + intros f Of.
      destruct R as [e0 _ Oe|f' r evs _ Of' O| | |data' name r evs P' _ _ _ O|];
        try contradiction; try congruence.
      rewrite Of in Of'. injection Of' as <-.
      apply Outcome_first in O as (r0 & evs' & ->).
      exists r0, (evs' ++ [EvFileClose f]). reflexivity.
    + intros e ->. now apply (AssemblyRun_path_failure request e).
Qed.

(** C8. With a path that can be opened, the file is closed on every exit
    of the assembly: whatever it returns, its trace is the open, calls
    on the builder only, and then the close of the opened file. *)
Theorem file_closed_on_every_exit (request : AudioRequest) (f : os_File)
  (w : World B) :
  FilePath request <> EmptyString ->
  os_Open (FilePath request) = Ok f ->
  exists r w' evs,
    audioMultipartForm request w = (Val r, w') /\
    trace w' =
      trace w ++ EvOpen (FilePath request) None :: evs ++ [EvFileClose f] /\
    Forall (fun e => is_builder_call e = true) evs.
Proof.
  intros P Of.
  destruct (audioMultipartForm_run request w) as (r & w' & evs & E & T & R).
  destruct R as [e0 _ Oe|f' r evs _ Of' O| | |data' name r evs P' _ _ _ O|];
    try contradiction; try congruence.
  rewrite Of in Of'. injection Of' as <-.
  exists r, w', evs. repeat split; auto.
  now apply (Outcome_builder_calls (fileStep f :: fieldSteps request) r).
Qed.

(** C10. A Format that is not empty is not checked against the three
    formats: the form of a request that assembles has the field
    [response_format] with that very string, and no other value is ever
    written under that name; and unless the string is [json], the body
    of the reply, verbatim, is the text of the result. *)
Theorem format_is_not_validated (c : Client B) (request : AudioRequest)
  (suffix : string) (w w1 : World B) (req : http_Request) (body : list byte) :
  let url := fullURL c ("/audio/" ++ suffix) in
  let sent := Header_Add req "Content-Type" (formDataContentType (builder w1)) in
  Format request <> EmptyString ->
  audioMultipartForm request (fresh c w) = (Val None, w1) ->
  http_NewRequestWithContext "POST" url (formBody (builder w1)) = Ok req ->
  httpDo c sent = Ok body ->
  (exists evs,
     trace w1 = trace w ++ evs /\
     In ("response_format", TextValue (Format request)) (formFields evs) /\
     forall e, In e evs -> writes_field "response_format" e = true ->
               e = EvWriteField "response_format" (Format request) None)
  /\
  (Format request <> AudioResponseFormatJSON ->
   callAudioAPI c request suffix w =
     (Val ({| Text := string_of_list_byte body |}, None),
      after_send w1 url sent IntoText)).
Proof.
  intros url sent F A N D. split.
  - destruct (audioMultipartForm_run request (fresh c w))
      as (r & w0 & evs & E & T & R).
    rewrite A in E. injection E as <- <-.
    destruct (AssemblyRun_success request evs R) as (OK & file & Fs).
    exists evs. repeat split; auto.
    + rewrite Fs. unfold textFields.
      apply String.eqb_neq in F. rewrite F. right.
      apply in_or_app. right. apply in_or_app. right.
      apply in_or_app. left. now left.
    + intros e I W.
      destruct (field_write_is_a_step request None evs e "response_format" R I W)
        as (s & v & err & Is & Ws & ->); [discriminate|].
      rewrite Forall_forall in OK. specialize (OK _ I). cbn [ev_err] in OK.
      subst err.
      apply In_fieldSteps in Is. rewrite Ws in Is.
      repeat (destruct Is as [Is|Is]); try discriminate Is;
        destruct Is as [_ Is]; try discriminate Is.
      now injection Is as ->.
  - intros NJ.
    pose proof (callAudioAPI_sends c request suffix w w1 req body A N D) as S.
    fold url sent in S. unfold HasJSONResponse in S.
    apply String.eqb_neq in F, NJ. now rewrite F, NJ in S.
Qed.

End Claims.

(** ** The properties on the test doubles *)

Module Instances.

Import Doubles.

(** The reply [hello] as [json] and as [srt]. *)
Lemma decoding_follows_format_witness :
  let json := with_format AudioResponseFormatJSON (with_path "a.wav" request0) in
  let srt := with_format AudioResponseFormatSRT (with_path "a.wav" request0) in
  fst (callAudioAPI hello_client json "transcriptions" w0)
    = Val ({| Text := "hello" |}, None) /\
  fst (callAudioAPI hello_client srt "transcriptions" w0)
    = Val ({| Text := string_of_list_byte hello_reply |}, None).
Proof.
  intros json srt. split.
  - pose proof (decoding_follows_format hello_client json "transcriptions" w0
                  (snd (audioMultipartForm json (fresh hello_client w0)))
                  (post (formBody (builder
                     (snd (audioMultipartForm json (fresh hello_client w0))))))
                  hello_reply eq_refl eq_refl eq_refl) as [J _].
    rewrite (J (or_intror eq_refl)). reflexivity.
  - pose proof (decoding_follows_format hello_client srt "transcriptions" w0
                  (snd (audioMultipartForm srt (fresh hello_client w0)))
                  (post (formBody (builder
                     (snd (audioMultipartForm srt (fresh hello_client w0))))))
                  hello_reply eq_refl eq_refl eq_refl) as [_ S].
    rewrite (S (or_introl eq_refl)). reflexivity.
Defined.

Lemma no_input_source_witness :
  FilePath request0 = EmptyString /\ FileBytes request0 = None /\
  audioMultipartForm request0 w0 = (Val (Some no_source_error), w0) /\
  Error no_source_error = "either FilePath or FileBytes should be specified" /\
  callAudioAPI hello_client request0 "transcriptions" w0 =
    (Val (AudioResponse_zero, Some no_source_error), fresh hello_client w0) /\
  trace (snd (callAudioAPI hello_client request0 "transcriptions" w0)) = trace w0.
Proof.
  split; [reflexivity|]. split; [reflexivity|].
  exact (no_input_source hello_client request0 "transcriptions" w0 eq_refl eq_refl).
Defined.

(** The message of the error is not the one with [path] and [bytes]. *)
Lemma no_input_source_message :
  FilePath request0 = EmptyString /\ FileBytes request0 = None /\
  exists e,
    audioMultipartForm request0 w0 = (Val (Some e), w0) /\
    (Error e =? "either path or bytes should be specified") = false.
Proof.
  split; [reflexivity|]. split; [reflexivity|].
  exists no_source_error. split; reflexivity.
Qed.

Lemma In_clip (c : ascii) : In c (list_ascii_of_string "clip") -> c <> "."%char.
Proof.
  simpl. intros [<-|[<-|[<-|[<-|[]]]]]; discriminate.
Defined.

Lemma bytes_need_extension_witness :
  audioMultipartForm (with_bytes (Some "clip") [x01; x02] request0) w0
    = (Val (Some FileName_error), w0).
Proof.
  apply (bytes_need_extension (with_bytes (Some "clip") [x01; x02] request0)
           [x01; x02] w0 eq_refl eq_refl).
  intros name E I. injection E as <-. exact (In_clip "." I eq_refl).
Defined.

Lemma nil_FileName_is_rejected_witness :
  audioMultipartForm (with_bytes None [x01; x02] request0) w0
    = (Val (Some FileName_error), w0) /\
  audioMultipartForm (with_bytes (Some "clip") [x01; x02] request0) w0
    = audioMultipartForm (with_bytes None [x01; x02] request0) w0.
Proof.
  destruct (nil_FileName_is_rejected (with_bytes None [x01; x02] request0)
              [x01; x02] w0 eq_refl eq_refl eq_refl) as [A S].
  split; [exact A|].
  apply (S (with_bytes (Some "clip") [x01; x02] request0) [x01; x02] "clip"
           eq_refl eq_refl eq_refl).
  intros I. exact (In_clip "." I eq_refl).
Defined.

(** A Temperature of one half is written as [0.50]; a Temperature of
    zero is not written. *)
Lemma temperature_field_witness :
  float32_valid half = true /\
  In ("temperature", TextValue "0.50")
     (formFields (trace (snd (audioMultipartForm full_request w0)))) /\
  two_decimal_digits "0.50" = true /\
  Forall (fun e => writes_field "temperature" e = false)
         (trace (snd (audioMultipartForm (with_path "a.wav" request0) w0))).
Proof.
  destruct (temperature_field full_request w0) as [_ NZ].
  assert (A : audioMultipartForm full_request w0
              = (Val None, snd (audioMultipartForm full_request w0)))
    by reflexivity.
  destruct (NZ eq_refl (snd (audioMultipartForm full_request w0)) A)
    as (evs & T & I & D).
  destruct (temperature_field (with_path "a.wav" request0) w0) as [Z _].
  destruct (Z eq_refl) as (r & w' & evs' & E & T' & N).
  split; [reflexivity|]. split; [|split].
  - rewrite T. exact I.
  - exact D.
  - rewrite E. cbn [snd]. rewrite T'. exact N.
Defined.

(** A Temperature of plus infinity is different from zero and is written
    as [+Inf], which has no decimal digits. *)
Lemma temperature_infinity :
  let request := with_temperature (S754_infinity false) (with_path "a.wav" request0) in
  float32_valid (Temperature request) = true /\
  float32_neq_zero (Temperature request) = true /\
  fst (audioMultipartForm request w0) = Val None /\
  formFields (trace (snd (audioMultipartForm request w0))) =
    [("file", FromFile {| Fd := 3; Name := "a.wav" |});
     ("model", TextValue "whisper-1");
     ("temperature", TextValue "+Inf")] /\
  two_decimal_digits "+Inf" = false.
Proof. repeat split. Qed.

Lemma form_field_order_witness :
  map fst (formFields (trace (snd (audioMultipartForm full_request w0)))) =
    ["file"; "model"; "prompt"; "response_format"; "temperature"; "language"] /\
  skipn 1 (formFields (trace (snd (audioMultipartForm full_request w0)))) =
    [("model", TextValue "whisper-1");
     ("prompt", TextValue "English");
     ("response_format", TextValue "srt");
     ("temperature", TextValue "0.50");
     ("language", TextValue "en")].
Proof.
  assert (A : audioMultipartForm full_request w0
              = (Val None, snd (audioMultipartForm full_request w0)))
    by reflexivity.
  destruct (form_field_order full_request w0
              (snd (audioMultipartForm full_request w0)) A)
    as (evs & file & T & _ & F & _).
  rewrite T. change (trace w0 ++ evs) with evs. rewrite F.
  split; reflexivity.
Defined.

(** The third call on the builder, the write of [temperature], fails. *)
Lemma assembly_failure_short_circuits_witness :
  let err := fmt_Errorf_w "writing temperature: " (errorString "mock failure") in
  exists w1,
    audioMultipartForm (with_temperature half (with_path "a.wav" request0))
      (fresh failing_client (start 0%nat)) = (Val (Some err), w1) /\
    callAudioAPI failing_client
      (with_temperature half (with_path "a.wav" request0)) "transcriptions"
      (start 0%nat) = (Val (AudioResponse_zero, Some err), w1) /\
    Forall (fun e => is_http e = false) (trace w1) /\
    ~ In (EvClose None) (trace w1).
Proof.
  intros err.
  exists (snd (audioMultipartForm (with_temperature half (with_path "a.wav" request0))
                 (fresh failing_client (start 0%nat)))).
  assert (A : audioMultipartForm (with_temperature half (with_path "a.wav" request0))
                (fresh failing_client (start 0%nat))
              = (Val (Some err),
                 snd (audioMultipartForm
                        (with_temperature half (with_path "a.wav" request0))
                        (fresh failing_client (start 0%nat)))))
    by reflexivity.
  split; [exact A|].
  destruct (assembly_failure_short_circuits failing_client
              (with_temperature half (with_path "a.wav" request0))
              "transcriptions" (start 0%nat) _ err A)
    as (C & evs & T & NH & NC & _).
  split; [exact C|]. rewrite T. split; [exact NH | exact NC].
Defined.

Lemma path_takes_precedence_witness :
  let both := with_bytes (Some "clip") [x01; x02] (with_path "a.wav" request0) in
  FilePath both <> EmptyString /\ FileBytes both = Some [x01; x02] /\
  audioMultipartForm both w0 = audioMultipartForm (without_bytes both) w0.
Proof.
  intros both.
  assert (P : FilePath both <> EmptyString) by discriminate.
  split; [exact P|]. split; [reflexivity|].
  exact (proj1 (path_takes_precedence both [x01; x02] w0 P eq_refl)).
Defined.

(** The first call on the builder fails, and the file is closed. *)
Lemma file_closed_on_every_exit_witness :
  let f := {| Fd := 3; Name := "a.wav" |} in
  exists r w' evs,
    audioMultipartForm (with_path "a.wav" request0) (start 0%nat) = (Val r, w') /\
    trace w' = [] ++ EvOpen "a.wav" None :: evs ++ [EvFileClose f] /\
    Forall (fun e => is_builder_call e = true) evs.
Proof.
  intros f.
  assert (P : FilePath (with_path "a.wav" request0) <> EmptyString) by discriminate.
  exact (file_closed_on_every_exit (with_path "a.wav" request0) f
           (start 0%nat) P eq_refl).
Defined.

(** A Format outside the three formats is written as it is, and the
    reply is taken as text. *)
Lemma format_is_not_validated_witness :
  let request := with_format "verbose_json" (with_path "a.wav" request0) in
  In ("response_format", TextValue "verbose_json")
     (formFields (trace (snd (audioMultipartForm request w0)))) /\
  fst (callAudioAPI hello_client request "transcriptions" w0)
    = Val ({| Text := string_of_list_byte hello_reply |}, None).
Proof.
  intros request.
  assert (F : Format request <> EmptyString) by discriminate.
  assert (NJ : Format request <> AudioResponseFormatJSON) by discriminate.
  assert (A : audioMultipartForm request (fresh hello_client w0)
              = (Val None, snd (audioMultipartForm request (fresh hello_client w0))))
    by reflexivity.
  destruct (format_is_not_validated hello_client request "transcriptions" w0
              (snd (audioMultipartForm request (fresh hello_client w0)))
              (post (formBody (builder
                 (snd (audioMultipartForm request (fresh hello_client w0))))))
              hello_reply F A eq_refl eq_refl)
    as [(evs & T & I & _) S].
  split.
  - change (trace (snd (audioMultipartForm request w0)))
      with (trace (snd (audioMultipartForm request (fresh hello_client w0)))).
    rewrite T. exact I.
  - rewrite (S NJ). reflexivity.
Defined.

End Instances.


(** * Further properties of audio.go *)

(** ** The trace is only appended to *)

Section FrameFacts.

Context {B : Type} `{formBuilder B} `{Platform}.
















End FrameFacts.

(** ** Lists of calls *)

(** A list with one element that satisfies [P] splits at that element in
    one way only. *)
Lemma unique_split {A : Type} (P : A -> bool) (a : list A) (x : A) (b : list A) :
  Forall (fun e => P e = false) a ->
  Forall (fun e => P e = false) b ->
  forall before y after,
    a ++ x :: b = before ++ y :: after ->
    P y = true ->
    before = a /\ y = x /\ after = b.
Proof.
  intros Na Nb. induction Na as [|a0 a Ha Na IH]; intros before y after E Py.
  - destruct before as [|z before]; simpl in E.
    + injection E as <- <-. auto.
    + injection E as _ E. rewrite E in Nb.
      apply Forall_app in Nb as [_ Nb]. inversion Nb; congruence.
  - destruct before as [|z before]; simpl in E.
    + injection E as <- _. congruence.
    + injection E as <- E. destruct (IH before y after E Py) as (-> & -> & ->).
      auto.
Qed.

Lemma In_fieldSteps_eq (request : AudioRequest) (s : Step) :
  In s (fieldSteps request) ->
  s = fieldStep "model" (Model request) "writing model name: "
  \/ s = fieldStep "prompt" (Prompt request) "writing prompt: "
  \/ s = fieldStep "response_format" (Format request) "writing format: "
  \/ s = fieldStep "temperature" (fmt_Sprintf_2f (Temperature request))
           "writing temperature: "
  \/ s = fieldStep "language" (Language request) "writing language: "
  \/ s = closeStep.
Proof.
  unfold fieldSteps, stepIf. rewrite !in_app_iff.
  destruct (negb (Prompt request =? EmptyString)),
           (negb (Format request =? EmptyString)),
           (float32_neq_zero (Temperature request)),
           (negb (Language request =? EmptyString));
    cbn [In]; intuition auto.
Qed.

(** The wrapper of each step of lines 131-169 is the one [reported] gives
    for its call. *)
Lemma step_reports (request : AudioRequest) (s : Step) (e : error) :
  In s (fieldSteps request) ->
  wrap s e = reported (event_of (what s) (Some e)) e.
Proof.
  intros I. apply In_fieldSteps_eq in I.
  repeat (destruct I as [I|I]); subst s; reflexivity.
Qed.

Lemma event_of_finalize (s : Step) (r : option error) :
  is_finalize (event_of (what s) r) = finalizes s.
Proof. unfold finalizes. destruct (what s); reflexivity. Qed.

Lemma ok_events_not_finalize (steps : list Step) :
  Forall (fun s => finalizes s = false) steps ->
  Forall (fun e => is_finalize e = false) (ok_events steps).
Proof.
  intros N. induction N as [|s steps Hs N IH]; simpl; constructor; auto.
  now rewrite event_of_finalize.
Qed.

(** A run of steps that end with [close]: the calls before the last one do
    not finalize, and [close] is at most the last call. *)
Lemma Outcome_finalize (body : list Step) (r : option error) (evs : list Event) :
  Forall (fun s => finalizes s = false) body ->
  Outcome (body ++ [closeStep]) r evs ->
  exists init last,
    evs = init ++ last /\
    Forall (fun e => is_finalize e = false) init /\
    (last = [] \/ exists r0, last = [EvClose r0]).
Proof.
  intros NB O. inversion O as [|done s rest e E]; subst.
  - exists (ok_events body), [EvClose None]. repeat split.
    + unfold ok_events. now rewrite map_app.
    + now apply ok_events_not_finalize.
    + right. now exists None.
  - symmetry in E. destruct (prefix_of_front _ _ _ _ _ E) as [tail ->].
    rewrite <- app_assoc in E. apply app_inv_head in E.
    apply Forall_app in NB as [ND NT].
    destruct tail as [|t tail]; simpl in E.
    + injection E as -> ->.
      exists (ok_events done), [EvClose (Some e)]. repeat split.
      * now apply ok_events_not_finalize.
      * right. now exists (Some e).
    + injection E as -> _.
      exists (ok_events done ++ [event_of (what t) (Some e)]), []. repeat split.
      * now rewrite app_nil_r.
      * apply Forall_app. split; [now apply ok_events_not_finalize|].
        constructor; [|constructor]. rewrite event_of_finalize.
        now inversion NT.
      * now left.
Qed.

(** A list of calls in which [close] is at most one call, followed by
    calls that are not on the builder. *)
Lemma finalize_split (a last b : list Event) :
  Forall (fun e => is_finalize e = false) a ->
  (last = [] \/ exists r0, last = [EvClose r0]) ->
  Forall (fun e => is_builder_call e = false) b ->
  forall before r after,
    a ++ last ++ b = before ++ EvClose r :: after ->
    Forall (fun e => is_finalize e = false) before /\
    Forall (fun e => is_builder_call e = false) after.
Proof.
  intros Na L Nb before r after E.
  assert (Nb' : Forall (fun e => is_finalize e = false) b).
  { eapply Forall_impl; [|exact Nb]. intros [] ?; simpl in *; congruence. }
  destruct L as [->|[r0 ->]]; simpl in E.
  - exfalso.
    assert (I : In (EvClose r) (a ++ b))
      by (rewrite E; apply in_or_app; right; now left).
    assert (N : Forall (fun e => is_finalize e = false) (a ++ b))
      by (apply Forall_app; auto).
    rewrite Forall_forall in N. specialize (N _ I). discriminate.
  - destruct (unique_split is_finalize a (EvClose r0) b Na Nb'
                before (EvClose r) after E eq_refl) as (-> & _ & ->).
    auto.
Qed.

(** ** Every exit of the assembly and of the dispatch *)

Section Exits.

Context {B : Type} `{formBuilder B} `{Platform}.

(** Where [close] stands in the calls of an assembly. *)
Lemma AssemblyRun_finalize (request : AudioRequest) (r : option error)
  (evs : list Event) :
  AssemblyRun request r evs ->
  exists a last b,
    evs = a ++ last ++ b /\
    Forall (fun e => is_finalize e = false) a /\
    (last = [] \/ exists r0, last = [EvClose r0]) /\
    Forall (fun e => is_builder_call e = false) b.
Proof.
  assert (Steps : forall first r evs,
    finalizes first = false ->
    Outcome (first :: fieldSteps request) r evs ->
    exists init last,
      evs = init ++ last /\
      Forall (fun e => is_finalize e = false) init /\
      (last = [] \/ exists r0, last = [EvClose r0])).
  { intros first r0 evs0 F O.
    destruct (fieldSteps_front request) as (front & E & NF).
    rewrite E in O.
    apply (Outcome_finalize (first :: front) r0 evs0); auto. }
  intros R.
  destruct R as [e0|f r evs _ _ O| | |data name r evs _ _ _ _ O|].
  - exists [EvOpen (FilePath request) (Some e0)], [], []. repeat split; auto.
  - destruct (Steps (fileStep f) r evs eq_refl O) as (init & last & -> & Ni & L).
    exists (EvOpen (FilePath request) None :: init), last, [EvFileClose f].
    repeat split; auto.
    simpl. now rewrite <- app_assoc.
  - exists [], [], []. repeat split; auto.
  - exists [], [], []. repeat split; auto.
  - destruct (Steps (bytesStep name data) r evs eq_refl O)
      as (init & last & -> & Ni & L).
    exists init, last, []. repeat split; auto. now rewrite app_nil_r.
  - exists [], [], []. repeat split; auto.
Qed.

(** The calls on the builder are those of the first step and of the steps
    of lines 131-169. *)
Lemma AssemblyRun_builder_events (request : AudioRequest) (r : option error)
  (evs : list Event) (e : Event) :
  AssemblyRun request r evs ->
  In e evs ->
  is_builder_call e = true ->
  exists s err,
    e = event_of (what s) err /\
    (In s (fieldSteps request)
     \/ (exists f, s = fileStep f)
     \/ (exists name data, s = bytesStep name data)).
Proof.
  intros R I C.
  destruct R as [e0|f r evs _ _ O| | |data name r evs _ _ _ _ O|];
    simpl in I; try contradiction.
  - destruct I as [<-|[]]. discriminate.
  - destruct I as [<-|I]; [discriminate|].
    apply in_app_or in I as [I|[<-|[]]]; [|discriminate].
    apply Outcome_events in O. rewrite Forall_forall in O.
    destruct (O _ I) as (s & err & [<-|Is] & ->).
    + exists (fileStep f), err. split; [reflexivity|]. right. left. now exists f.
    + exists s, err. auto.
  - apply Outcome_events in O. rewrite Forall_forall in O.
    destruct (O _ I) as (s & err & [<-|Is] & ->).
    + exists (bytesStep name data), err. split; [reflexivity|].
      right. right. now exists name, data.
    + exists s, err. auto.
Qed.

(** An assembly that succeeds finalized the form, and closed the file it
    opened. *)
Lemma AssemblyRun_finalized (request : AudioRequest) (evs : list Event) :
  AssemblyRun request None evs ->
  In (EvClose None) evs /\
  forall path r, In (EvOpen path r) evs -> exists f, In (EvFileClose f) evs.
Proof.
  assert (Closes : forall first,
    In (EvClose None) (ok_events (first :: fieldSteps request))).
  { intros first. right. unfold ok_events. apply in_map_iff.
    exists closeStep. split; [reflexivity|].
    unfold fieldSteps. rewrite !in_app_iff. do 5 right. now left. }
  intros R. remember None as r eqn:Er.
  destruct R as [e0|f r evs _ _ O| | |data name r evs _ _ _ _ O|];
    try discriminate; subst r; apply Outcome_success in O; subst evs.
  - split.
    + right. apply in_or_app. left. apply Closes.
    + intros path r _. exists f. right. apply in_or_app. right. now left.
  - split; [apply Closes|].
    intros path r I. exfalso.
    pose proof (ok_events_builder_calls (bytesStep name data :: fieldSteps request))
      as Bc.
    rewrite Forall_forall in Bc. specialize (Bc _ I). discriminate.
Qed.

(** When the form is assembled and the request built, it is sent once,
    with the target that [HasJSONResponse] selects; an error of the send
    comes with the zero response. *)
Lemma callAudioAPI_built (c : Client B) (request : AudioRequest)
  (suffix : string) (w w1 : World B) (req : http_Request) :
  let url := fullURL c ("/audio/" ++ suffix) in
  let sent := Header_Add req "Content-Type" (formDataContentType (builder w1)) in
  audioMultipartForm request (fresh c w) = (Val None, w1) ->
  http_NewRequestWithContext "POST" url (formBody (builder w1)) = Ok req ->
  exists resp,
    callAudioAPI c request suffix w =
      (Val resp,
       after_send w1 url sent
         (if HasJSONResponse request then IntoResponse else IntoText)) /\
    (snd resp <> None -> fst resp = AudioResponse_zero).
Proof.
  intros url sent A N. unfold callAudioAPI, bind at 1, new_builder.
  unfold bind at 1. fold (fresh c w). rewrite A.
  unfold bind at 1, do_NewRequest. fold url. rewrite N.
  unfold bind at 1, contentType. cbn [builder]. fold sent.
  destruct (HasJSONResponse request);
    unfold bind at 1, sendRequest; unfold bind at 1; cbn [emit];
    destruct (httpDo c sent) as [body|e].
  - destruct (json_Decode body) as [decoded|e]; eexists;
      (split; [reflexivity|]); simpl; congruence.
  - eexists. split; [reflexivity|]. reflexivity.
  - eexists. split; [reflexivity|]. simpl. congruence.
  - eexists. split; [reflexivity|]. reflexivity.
Qed.

Lemma callAudioAPI_not_built (c : Client B) (request : AudioRequest)
  (suffix : string) (w w1 : World B) (e : error) :
  let url := fullURL c ("/audio/" ++ suffix) in
  audioMultipartForm request (fresh c w) = (Val None, w1) ->
  http_NewRequestWithContext "POST" url (formBody (builder w1)) = Fail e ->
  callAudioAPI c request suffix w =
    (Val (AudioResponse_zero, Some e), logged w1 (EvNewRequest "POST" url (Some e))).
Proof.
  intros url A N. unfold callAudioAPI, bind at 1, new_builder.
  unfold bind at 1. fold (fresh c w). rewrite A.
  unfold bind at 1, do_NewRequest. fold url. rewrite N. reflexivity.
Qed.

(** Every call of callAudioAPI: the assembly, then the HTTP calls. *)
Lemma callAudioAPI_cases (c : Client B) (request : AudioRequest)
  (suffix : string) (w : World B) :
  exists ra w1 asm resp w2 http,
    audioMultipartForm request (fresh c w) = (Val ra, w1) /\
    trace w1 = trace w ++ asm /\
    AssemblyRun request ra asm /\
    callAudioAPI c request suffix w = (Val resp, w2) /\
    trace w2 = trace w1 ++ http /\
    HttpCalls (fullURL c ("/audio/" ++ suffix)) http /\
    (ra <> None -> http = [] /\ resp = (AudioResponse_zero, ra)) /\
    (snd resp <> None -> fst resp = AudioResponse_zero).
Proof.
  destruct (audioMultipartForm_run request (fresh c w))
    as (ra & w1 & asm & A & T & R).
  destruct ra as [e|].
  - exists (Some e), w1, asm, (AudioResponse_zero, Some e), w1, [].
    repeat split; auto.
    + now apply callAudioAPI_assembly_fails.
    + now rewrite app_nil_r.
    + constructor.
  - destruct (http_NewRequestWithContext "POST" (fullURL c ("/audio/" ++ suffix))
                (formBody (builder w1))) as [req|e] eqn:N.
    + destruct (callAudioAPI_built c request suffix w w1 req A N) as (resp & C & Z).
      exists None, w1, asm, resp,
        (after_send w1 (fullURL c ("/audio/" ++ suffix))
           (Header_Add req "Content-Type" (formDataContentType (builder w1)))
           (if HasJSONResponse request then IntoResponse else IntoText)),
        [EvNewRequest "POST" (fullURL c ("/audio/" ++ suffix)) None;
         EvSend (Header_Add req "Content-Type" (formDataContentType (builder w1)))
           (if HasJSONResponse request then IntoResponse else IntoText)].
      split; [exact A|]. split; [exact T|]. split; [exact R|].
      split; [exact C|]. split.
      { unfold after_send, logged. cbn [trace]. now rewrite <- app_assoc. }
      split; [constructor|]. split; [congruence | exact Z].
    + exists None, w1, asm, (AudioResponse_zero, Some e),
        (logged w1 (EvNewRequest "POST" (fullURL c ("/audio/" ++ suffix)) (Some e))),
        [EvNewRequest "POST" (fullURL c ("/audio/" ++ suffix)) (Some e)].
      split; [exact A|]. split; [exact T|]. split; [exact R|].
      split; [now apply callAudioAPI_not_built|]. split; [reflexivity|].
      split; [constructor|]. split; [congruence | reflexivity].
Qed.

End Exits.

(** ** Further properties *)

Section Further.

Context {B : Type} `{formBuilder B} `{Platform}.

(** X1. When the form is assembled and the request can be built,
    callAudioAPI makes, after the calls of the assembly, exactly two more
    calls: it builds the POST request for [/audio/suffix] and sends it
    once, with the header Content-Type of the builder added and the
    target that the Format selects.  By then the form is finalized and
    every file that was opened is closed. *)
Theorem request_follows_assembly (c : Client B) (request : AudioRequest)
  (suffix : string) (w w1 : World B) (req : http_Request) :
  let url := fullURL c ("/audio/" ++ suffix) in
  let sent := Header_Add req "Content-Type" (formDataContentType (builder w1)) in
  audioMultipartForm request (fresh c w) = (Val None, w1) ->
  http_NewRequestWithContext "POST" url (formBody (builder w1)) = Ok req ->
  exists asm,
    trace (snd (callAudioAPI c request suffix w)) =
      trace w ++ asm ++
      [EvNewRequest "POST" url None;
       EvSend sent (if HasJSONResponse request then IntoResponse else IntoText)] /\
    Forall (fun e => is_http e = false) asm /\
    In (EvClose None) asm /\
    (forall path r, In (EvOpen path r) asm -> exists f, In (EvFileClose f) asm).
Proof.
  intros url sent A N.
  destruct (callAudioAPI_built c request suffix w w1 req A N) as (resp & C & _).
  fold url sent in C.
  destruct (audioMultipartForm_run request (fresh c w))
    as (ra & w1' & asm & A' & T & R).
  rewrite A in A'. injection A' as <- <-.
  exists asm. rewrite C. split; [|split].
  - unfold after_send, logged. cbn [snd trace]. rewrite T. cbn [fresh trace].
    now rewrite <- !app_assoc.
  - now apply (AssemblyRun_no_http request None).
  - exact (AssemblyRun_finalized request asm R).
Qed.

(** X2. The endpoint suffix matters only through the URL: two suffixes
    that the client maps to the same URL give the same call, and with an
    assembly that fails the suffix does not matter at all (so
    CreateTranscription and CreateTranslation then do the same). *)
Theorem suffix_only_selects_url (c : Client B) (request : AudioRequest)
  (s1 s2 : string) (w : World B) :
  (fullURL c ("/audio/" ++ s1) = fullURL c ("/audio/" ++ s2) ->
   callAudioAPI c request s1 w = callAudioAPI c request s2 w) /\
  (forall e w1,
     audioMultipartForm request (fresh c w) = (Val (Some e), w1) ->
     CreateTranscription c request w = CreateTranslation c request w).
Proof.
  split.
  - intros E. unfold callAudioAPI. cbv zeta. now rewrite E.
  - intros e w1 A. unfold CreateTranscription, CreateTranslation.
    now rewrite !(callAudioAPI_assembly_fails c request _ w w1 e A).
Qed.

(** X3. When the path cannot be opened, the assembly returns the error of
    the open wrapped as [opening audio file: ...]; the only call made is
    the open: nothing is written to the builder, nothing is closed, and
    callAudioAPI makes no HTTP call. *)
Theorem open_failure (c : Client B) (request : AudioRequest) (suffix : string)
  (w : World B) (e : error) :
  FilePath request <> EmptyString ->
  os_Open (FilePath request) = Fail e ->
  let err := fmt_Errorf_w "opening audio file: " e in
  audioMultipartForm request w =
    (Val (Some err), logged w (EvOpen (FilePath request) (Some e))) /\
  callAudioAPI c request suffix w =
    (Val (AudioResponse_zero, Some err),
     logged (fresh c w) (EvOpen (FilePath request) (Some e))) /\
  Unwrap err = Some e /\
  Error err = ("opening audio file: " ++ Error e)%string.
Proof.
  intros P O err.
  assert (A : forall w0 : World B, audioMultipartForm request w0 =
            (Val (Some err), logged w0 (EvOpen (FilePath request) (Some e)))).
  { intros w0. unfold audioMultipartForm. apply String.eqb_neq in P. rewrite P.
    cbn [negb]. unfold bind, do_os_Open. rewrite O. reflexivity. }
  repeat split; auto.
  apply callAudioAPI_assembly_fails. apply A.
Qed.

(** X4. When the form is assembled but the request cannot be built,
    callAudioAPI returns the zero response with the error of
    NewRequestWithContext, unwrapped, and sends nothing. *)
Theorem request_not_built (c : Client B) (request : AudioRequest)
  (suffix : string) (w w1 : World B) (e : error) :
  let url := fullURL c ("/audio/" ++ suffix) in
  audioMultipartForm request (fresh c w) = (Val None, w1) ->
  http_NewRequestWithContext "POST" url (formBody (builder w1)) = Fail e ->
  callAudioAPI c request suffix w =
    (Val (AudioResponse_zero, Some e),
     logged w1 (EvNewRequest "POST" url (Some e))).
Proof. intros url A N. now apply callAudioAPI_not_built. Qed.

(** X5. An assembly that fails either made no call at all and returns one
    of the two validation errors, or made a call that failed: then every
    call before it succeeded, and the error returned is the error of that
    call under the prefix of its stage (the error of [close] as it is). *)
Theorem failure_names_its_stage (request : AudioRequest) (w w' : World B)
  (err : error) :
  audioMultipartForm request w = (Val (Some err), w') ->
  exists evs,
    trace w' = trace w ++ evs /\
    ((evs = [] /\ (err = FileName_error \/ err = no_source_error))
     \/
     exists pre x e0 post,
       evs = pre ++ x :: post /\
       Forall (fun e => ev_err e = None) pre /\
       ev_err x = Some e0 /\
       err = reported x e0 /\
       Forall (fun e => is_assembly_step e = false) post).
Proof.
  intros A.
  destruct (audioMultipartForm_run request w) as (r & w0 & evs & E & T & R).
  rewrite A in E. injection E as <- <-.
  exists evs. split; [exact T|].
  assert (Steps : forall first evs0,
    (forall e, wrap first e = reported (event_of (what first) (Some e)) e) ->
    Outcome (first :: fieldSteps request) (Some err) evs0 ->
    exists done x e0,
      evs0 = ok_events done ++ [x] /\ ev_err x = Some e0 /\ err = reported x e0).
  { intros first evs0 Wf O.
    apply Outcome_failure in O as (done & s & rest & e & Es & -> & ->).
    exists done, (event_of (what s) (Some e)), e.
    split; [reflexivity|]. split; [apply ev_err_event_of|].
    assert (Is : In s (first :: fieldSteps request))
      by (rewrite Es; apply in_or_app; right; now left).
    destruct Is as [<-|Is]; [apply Wf | now apply (step_reports request)]. }
  remember (Some err) as r eqn:Er.
  destruct R as [e0|f r evs _ _ O| | |data name r evs _ _ _ _ O|].
  - right. injection Er as <-.
    exists [], (EvOpen (FilePath request) (Some e0)), e0, []. repeat split; auto.
  - right. subst r.
    destruct (Steps (fileStep f) evs (fun e => eq_refl) O)
      as (done & x & e0 & -> & Ex & Rx).
    exists (EvOpen (FilePath request) None :: ok_events done), x, e0,
      [EvFileClose f].
    repeat split; auto.
    + simpl. now rewrite <- app_assoc.
    + constructor; [reflexivity | apply ok_events_succeed].
  - left. injection Er as <-. auto.
  - left. injection Er as <-. auto.
  - right. subst r.
    destruct (Steps (bytesStep name data) evs (fun e => eq_refl) O)
      as (done & x & e0 & -> & Ex & Rx).
    exists (ok_events done), x, e0, []. repeat split; auto.
    apply ok_events_succeed.
  - left. injection Er as <-. auto.
Qed.

(** X6. With no path, bytes, and a file name that contains a [.], the
    first call of the assembly creates the [file] field from those bytes
    under that name, and every call is a call on the builder: no file is
    opened or closed.  When the assembly succeeds, that first call
    succeeded. *)
Theorem bytes_variant_run (request : AudioRequest) (data : list byte)
  (name : string) (w : World B) :
  FilePath request = EmptyString ->
  FileBytes request = Some data ->
  FileName request = Some name ->
  In "."%char (list_ascii_of_string name) ->
  exists r w' r0 evs,
    audioMultipartForm request w = (Val r, w') /\
    trace w' = trace w ++ EvCreateFormFileFromBytes "file" name data r0 :: evs /\
    Forall (fun e => is_builder_call e = true) evs /\
    (r = None -> r0 = None).
Proof.
  intros P Bs Nm D. apply GoFacts.Contains_dot in D.
  destruct (audioMultipartForm_run request w) as (r & w' & evs & E & T & R).
  assert (S : AssemblyRun request r evs) by exact R.
  destruct R as [e0 P'|f r evs P' _ O| ? _ _ N'| ? name' _ _ N' C'
                |data' name' r evs _ B' N' _ O| _ B'];
    try contradiction; try congruence.
  rewrite Bs in B'. injection B' as <-. rewrite Nm in N'. injection N' as <-.
  pose proof (Outcome_builder_calls _ _ _ O) as Bc.
  destruct (Outcome_first _ _ _ _ O) as (r0 & evs' & ->).
  exists r, w', r0, evs'. repeat split; auto.
  - now inversion Bc.
  - intros ->. destruct (AssemblyRun_success request _ S) as [OK _].
    inversion OK as [|? ? Hx _]. exact Hx.
Qed.

(** X7. callAudioAPI returns for every request (no nil FileName or
    FileBytes is dereferenced), and an error never comes with anything
    but the zero AudioResponse. *)
Theorem always_returns (c : Client B) (request : AudioRequest)
  (suffix : string) (w : World B) :
  exists resp err w',
    callAudioAPI c request suffix w = (Val (resp, err), w') /\
    (err <> None -> resp = AudioResponse_zero).
Proof.
  destruct (callAudioAPI_cases c request suffix w)
    as (ra & w1 & asm & [resp err] & w2 & http & _ & _ & _ & C & _ & _ & _ & Z).
  exists resp, err, w2. split; [exact C | exact Z].
Qed.

(** X8. In every run of the assembly [close] is called at most once, no
    call before it finalizes the form, and no call on the builder follows
    it. *)
Theorem finalize_once_and_last (request : AudioRequest) (w : World B) :
  exists r w' evs,
    audioMultipartForm request w = (Val r, w') /\
    trace w' = trace w ++ evs /\
    forall before r0 after,
      evs = before ++ EvClose r0 :: after ->
      Forall (fun e => is_finalize e = false) before /\
      Forall (fun e => is_builder_call e = false) after.
Proof.
  destruct (audioMultipartForm_run request w) as (r & w' & evs & E & T & R).
  exists r, w', evs. split; [exact E|]. split; [exact T|].
  destruct (AssemblyRun_finalize request r evs R) as (a & last & b & -> & Na & L & Nb).
  intros before r0 after Es.
  now apply (finalize_split a last b Na L Nb before r0 after).
Qed.

(** X9. One call of callAudioAPI makes, after the calls of the assembly,
    no HTTP call, or one request that could not be built, or one request
    built and sent once: nothing is sent twice, and nothing is sent
    before the assembly is over. *)
Theorem one_request_per_call (c : Client B) (request : AudioRequest)
  (suffix : string) (w : World B) :
  exists asm http,
    trace (snd (callAudioAPI c request suffix w)) = trace w ++ asm ++ http /\
    Forall (fun e => is_http e = false) asm /\
    HttpCalls (fullURL c ("/audio/" ++ suffix)) http.
Proof.
  destruct (callAudioAPI_cases c request suffix w)
    as (ra & w1 & asm & resp & w2 & http & _ & T1 & R & C & T2 & Hc & _).
  exists asm, http. rewrite C. cbn [snd]. rewrite T2, T1. split; [|split].
  - now rewrite app_assoc.
  - now apply (AssemblyRun_no_http request ra).
  - exact Hc.
Qed.

(** X10. In every run of the assembly, also one that fails, a text field
    is written only with the value of the request: [model] with Model,
    and [prompt], [response_format], [temperature] and [language] only
    when Prompt, Format and Language are not empty and Temperature is not
    zero. *)
Theorem text_fields_carry_request_values (request : AudioRequest) (w : World B) :
  exists r w' evs,
    audioMultipartForm request w = (Val r, w') /\
    trace w' = trace w ++ evs /\
    forall n v r0,
      In (EvWriteField n v r0) evs ->
      (n = "model" /\ v = Model request)
      \/ (n = "prompt" /\ v = Prompt request /\ Prompt request <> EmptyString)
      \/ (n = "response_format" /\ v = Format request /\
          Format request <> EmptyString)
      \/ (n = "temperature" /\ v = fmt_Sprintf_2f (Temperature request) /\
          float32_neq_zero (Temperature request) = true)
      \/ (n = "language" /\ v = Language request /\
          Language request <> EmptyString).
Proof.
  destruct (audioMultipartForm_run request w) as (r & w' & evs & E & T & R).
  exists r, w', evs. split; [exact E|]. split; [exact T|].
  intros n v r0 I.
  destruct (AssemblyRun_builder_events request r evs _ R I eq_refl)
    as (s & err & Ee & [Is|[(f & ->)|(name & data & ->)]]);
    try discriminate Ee.
  apply In_fieldSteps in Is.
  repeat (destruct Is as [Is|Is]);
    repeat match type of Is with
           | _ /\ _ => destruct Is as [? Is]
           end;
    rewrite Is in Ee; cbn [event_of] in Ee; try discriminate Ee;
    injection Ee as -> -> _; auto 10.
Qed.

End Further.

(** ** Success and the calls *)

Section Success.

Context {B : Type} `{formBuilder B} `{Platform}.



End Success.

(** ** The further properties on the test doubles *)

Module FurtherInstances.

Import Doubles MoreDoubles.

Lemma request_follows_assembly_witness :
  exists asm,
    trace (snd (callAudioAPI hello_client full_request "transcriptions" w0)) =
      asm ++
      [EvNewRequest "POST" transcriptions_url None;
       EvSend
         (Header_Add
            (post (formBody (builder
               (snd (audioMultipartForm full_request (fresh hello_client w0))))))
            "Content-Type" "multipart/form-data; boundary=boundary")
         IntoText] /\
    Forall (fun e => is_http e = false) asm /\
    In (EvClose None) asm.
Proof.
  assert (A : audioMultipartForm full_request (fresh hello_client w0)
              = (Val None, snd (audioMultipartForm full_request (fresh hello_client w0))))
    by reflexivity.
  destruct (request_follows_assembly hello_client full_request "transcriptions" w0
              (snd (audioMultipartForm full_request (fresh hello_client w0)))
              (post (formBody (builder
                 (snd (audioMultipartForm full_request (fresh hello_client w0))))))
              A eq_refl)
    as (asm & T & NH & C & _).
  exists asm. split; [exact T|]. split; [exact NH | exact C].
Defined.

Lemma suffix_only_selects_url_witness :
  CreateTranscription local_client full_request w0
  = CreateTranslation local_client full_request w0.
Proof.
  exact (proj1 (suffix_only_selects_url local_client full_request
                  "transcriptions" "translations" w0) eq_refl).
Defined.

Lemma open_failure_witness :
  let request := with_path "missing.wav" request0 in
  let e := errorString "open missing.wav: no such file or directory" in
  callAudioAPI hello_client request "transcriptions" w0 =
    (Val (AudioResponse_zero, Some (fmt_Errorf_w "opening audio file: " e)),
     {| builder := emptyEncoder; trace := [EvOpen "missing.wav" (Some e)] |}) /\
  Error (fmt_Errorf_w "opening audio file: " e)
    = "opening audio file: open missing.wav: no such file or directory".
Proof.
  intros request e.
  assert (P : FilePath request <> EmptyString) by discriminate.
  assert (O : os_Open (FilePath request) = Fail e) by reflexivity.
  destruct (open_failure hello_client request "transcriptions" w0 e P O)
    as (_ & C & _ & M).
  split; [exact C | exact M].
Defined.

Lemma request_not_built_witness :
  @callAudioAPI Encoder encoderBuilder noRequest hello_client
    (with_path "a.wav" request0) "transcriptions" w0 =
    (Val (AudioResponse_zero, Some (errorString "net/http: invalid method")),
     logged
       (snd (@audioMultipartForm Encoder encoderBuilder noRequest
               (with_path "a.wav" request0) (fresh hello_client w0)))
       (EvNewRequest "POST" transcriptions_url
          (Some (errorString "net/http: invalid method")))).
Proof.
  assert (A : @audioMultipartForm Encoder encoderBuilder noRequest
                (with_path "a.wav" request0) (fresh hello_client w0)
              = (Val None,
                 snd (@audioMultipartForm Encoder encoderBuilder noRequest
                        (with_path "a.wav" request0) (fresh hello_client w0))))
    by reflexivity.
  exact (@request_not_built Encoder encoderBuilder noRequest hello_client
           (with_path "a.wav" request0) "transcriptions" w0 _
           (errorString "net/http: invalid method") A eq_refl).
Defined.

(** The third call on the builder fails: the error names the temperature. *)
Lemma failure_names_its_stage_witness :
  let err := fmt_Errorf_w "writing temperature: " (errorString "mock failure") in
  fst (audioMultipartForm warm_request (start 2%nat)) = Val (Some err) /\
  Error err = "writing temperature: mock failure" /\
  exists evs,
    trace (snd (audioMultipartForm warm_request (start 2%nat))) = [] ++ evs /\
    ((evs = [] /\ (err = FileName_error \/ err = no_source_error))
     \/
     exists pre x e0 post,
       evs = pre ++ x :: post /\
       Forall (fun e => ev_err e = None) pre /\
       ev_err x = Some e0 /\
       err = reported x e0 /\
       Forall (fun e => is_assembly_step e = false) post).
Proof.
  intros err.
  assert (A : audioMultipartForm warm_request (start 2%nat)
              = (Val (Some err), snd (audioMultipartForm warm_request (start 2%nat))))
    by reflexivity.
  split; [reflexivity|]. split; [reflexivity|].
  exact (failure_names_its_stage warm_request (start 2%nat) _ err A).
Defined.

Lemma In_clip_wav : In "."%char (list_ascii_of_string "clip.wav").
Proof. simpl. auto 10. Defined.

Lemma bytes_variant_run_witness :
  exists r w' r0 evs,
    audioMultipartForm clip_request w0 = (Val r, w') /\
    trace w' =
      trace w0 ++ EvCreateFormFileFromBytes "file" "clip.wav" [x01; x02] r0 :: evs /\
    Forall (fun e => is_builder_call e = true) evs /\
    (r = None -> r0 = None).
Proof.
  exact (bytes_variant_run clip_request [x01; x02] "clip.wav" w0
           eq_refl eq_refl eq_refl In_clip_wav).
Defined.


End FurtherInstances.
